(** * Connect 4: board engine and rule-based bot of [Main_code.py]

    A shallow embedding of the classes [Connect4] and [Bot].  The numpy
    array [__container] is a list of rows of integer cells; arrays live in a
    heap of boards addressed by references, so that [curr_board.copy()],
    in-place writes and the alias [updated_board = self._Connect4__container]
    are modelled as the program performs them.  Rendering (pygame drawing,
    fonts, waits) is left out; it never touches the game state. *)

From Stdlib Require Import ZArith List Bool Lia String.
From stdpp Require Import base list.
Import ListNotations.
Local Open Scope Z_scope.

(** ** Global constants and Python call results *)

Definition num_columns : nat := 7.
Definition num_rows : nat := 6.
Definition SQUARESIZE : Z := 100.

Inductive exn := IndexError | ValueError | SystemExit.

(** A call returns a value, raises, or does not finish: [Diverge] is the
    answer when the list of draws handed to the model is used up before a
    [while True] loop has ended (on a full board no draw ever ends it). *)
Inductive result (A : Type) :=
| Ok (a : A)
| Raise (e : exn)
| Diverge.
Arguments Ok {A} a.
Arguments Raise {A} e.
Arguments Diverge {A}.

Definition rbind {A B} (r : result A) (k : A -> result B) : result B :=
  match r with
  | Ok a => k a
  | Raise e => Raise e
  | Diverge => Diverge
  end.

(** ** The board: a 6 x 7 numpy array, row 0 on top *)

Abbreviation board := (list (list Z)) (only parsing).

(** [np.zeros((6, 7))] *)
Definition zeros : board := replicate num_rows (replicate num_columns 0).

Definition wf_board (b : board) : Prop :=
  length b = num_rows /\ Forall (fun row => length row = num_columns) b.

(** [b[r][c]] for loop indices, which stay inside the 6 x 7 array. *)
Definition cell (b : board) (r c : nat) : Z := nth c (nth r b []) 0.

(** numpy index normalisation along an axis of length [n]: indices
    [-n .. -1] count from the end, anything outside [-n .. n-1] raises. *)
Definition norm_index (n : nat) (i : Z) : option nat :=
  if (0 <=? i) && (i <? Z.of_nat n) then Some (Z.to_nat i)
  else if (- Z.of_nat n <=? i) && (i <? 0) then Some (Z.to_nat (i + Z.of_nat n))
  else None.

(** [b[r, c]] read with arbitrary integer indices. *)
Definition getitem (b : board) (r c : Z) : result Z :=
  match norm_index num_rows r, norm_index num_columns c with
  | Some i, Some j =>
      match b !! i with
      | Some row => match row !! j with Some v => Ok v | None => Raise IndexError end
      | None => Raise IndexError
      end
  | _, _ => Raise IndexError
  end.

(** [b[r, c] = v] for indices already normalised. *)
Definition setcell (b : board) (r c : nat) (v : Z) : board :=
  alter (fun row => <[c := v]> row) r b.

(** ** Connect4 methods on a board value *)

Module Board.

(** [check_move_allowed]: [self.__container[0, column] == 0]. *)
Definition check_move_allowed (b : board) (column : Z) : result bool :=
  rbind (getitem b 0 column) (fun v => Ok (v =? 0)).

(** The [for row in reversed(range(6))] loop of [place_coin]: [row] is the
    loop variable after the loop, i.e. the row of the [break], or the last
    row visited when no [break] happened. *)
Fixpoint scan_rows (b : board) (j : nat) (rows : list nat) (row : nat) : nat :=
  match rows with
  | [] => row
  | r :: rows' => if cell b r j =? 0 then r else scan_rows b j rows' r
  end.

Definition landing_row (b : board) (j : nat) : nat :=
  scan_rows b j (rev (seq 0 num_rows)) 0%nat.

(** [place_coin]: the board after the call and the returned value
    ([Some true] for [True], [None] for the implicit [None]). *)
Definition place_coin (b : board) (column player : Z) : result (board * option bool) :=
  rbind (check_move_allowed b column) (fun res =>
    if res then
      match norm_index num_columns column with
      | Some j => Ok (setcell b (landing_row b j) j player, Some res)
      | None => Raise IndexError
      end
    else Ok (b, None)).

(** The chained comparison [a == b == c == d == player]. *)
Definition chain4 (a b c d player : Z) : bool :=
  (a =? b) && (b =? c) && (c =? d) && (d =? player).

Definition horizontal (b : board) (player : Z) : bool :=
  existsb (fun c => existsb (fun r =>
    chain4 (cell b r c) (cell b r (c + 1)) (cell b r (c + 2)) (cell b r (c + 3)) player)
    (seq 0 6)) (seq 0 (7 - 3)).

Definition vertical (b : board) (player : Z) : bool :=
  existsb (fun c => existsb (fun r =>
    chain4 (cell b r c) (cell b (r + 1) c) (cell b (r + 2) c) (cell b (r + 3) c) player)
    (seq 0 (6 - 3))) (seq 0 7).

Definition decreasing_diagonal (b : board) (player : Z) : bool :=
  existsb (fun c => existsb (fun r =>
    chain4 (cell b r c) (cell b (r + 1) (c + 1)) (cell b (r + 2) (c + 2))
           (cell b (r + 3) (c + 3)) player)
    (seq 0 (6 - 3))) (seq 0 (7 - 3)).

Definition increasing_diagonal (b : board) (player : Z) : bool :=
  existsb (fun c => existsb (fun r =>
    chain4 (cell b r c) (cell b (r - 1) (c + 1)) (cell b (r - 2) (c + 2))
           (cell b (r - 3) (c + 3)) player)
    (seq 3 3)) (seq 0 (7 - 3)).

(** [np.all(self.__container)] *)
Definition np_all (b : board) : bool :=
  forallb (fun row => forallb (fun v => negb (v =? 0)) row) b.

(** [check_win]: [Some player], [Some 3] for a draw, [None] otherwise. *)
Definition check_win (b : board) (player : Z) : option Z :=
  if horizontal b player then Some player
  else if vertical b player then Some player
  else if decreasing_diagonal b player then Some player
  else if increasing_diagonal b player then Some player
  else if np_all b then Some 3
  else None.

End Board.

(** ** Objects, heap and the state monad *)

(** The attributes of a [Connect4] (or [Bot]) object; [container] is the
    reference held in [self.__container]. *)
Record self := mkSelf {
  container : nat;
  turn : Z;
  game_over : bool;
  num_players : Z;
  bot_difficulty : option string
}.

(** [heap]: the numpy arrays allocated so far; [draws]: the values the
    random source will hand out next; [this]: the object whose method runs. *)
Record state := mkState {
  heap : list board;
  draws : list Z;
  this : self
}.

Definition M (A : Type) : Type := state -> result A * state.

Definition ret {A} (a : A) : M A := fun s => (Ok a, s).
Definition raise {A} (e : exn) : M A := fun s => (Raise e, s).
Definition diverge {A} : M A := fun s => (Diverge, s).
Definition bind {A B} (m : M A) (k : A -> M B) : M B :=
  fun s => match m s with
           | (Ok a, s') => k a s'
           | (Raise e, s') => (Raise e, s')
           | (Diverge, s') => (Diverge, s')
           end.
Definition get_state : M state := fun s => (Ok s, s).
Definition lift {A} (r : result A) : M A := fun s => (r, s).

Notation "'do' x <- m ;; k" := (bind m (fun x => k))
  (at level 10, x name, m at level 99, k at level 200).
Notation "'run' m ;; k" := (bind m (fun _ => k))
  (at level 10, m at level 99, k at level 200).

Definition set_heap (h : list board) (s : state) : state := mkState h (draws s) (this s).
Definition set_draws (d : list Z) (s : state) : state := mkState (heap s) d (this s).
Definition set_this (o : self) (s : state) : state := mkState (heap s) (draws s) o.

Definition set_container (r : nat) (o : self) : self :=
  mkSelf r (turn o) (game_over o) (num_players o) (bot_difficulty o).
Definition set_turn (t : Z) (o : self) : self :=
  mkSelf (container o) t (game_over o) (num_players o) (bot_difficulty o).
Definition set_game_over (g : bool) (o : self) : self :=
  mkSelf (container o) (turn o) g (num_players o) (bot_difficulty o).

Definition modify_this (f : self -> self) : M unit :=
  fun s => (Ok tt, set_this (f (this s)) s).

(** Reading through a reference.  Every reference a Python program holds is
    live; the [IndexError] answer for a reference outside the heap only keeps
    the model total. *)
Definition load (r : nat) : M board :=
  fun s => match heap s !! r with
           | Some b => (Ok b, s)
           | None => (Raise IndexError, s)
           end.

(** In-place update of the array behind [r]. *)
Definition store (r : nat) (b : board) : M unit :=
  fun s => (Ok tt, set_heap (<[r := b]> (heap s)) s).

(** A fresh array holding [b]. *)
Definition alloc (b : board) : M nat :=
  fun s => (Ok (length (heap s)), set_heap (heap s ++ [b]) s).

(** [np.random.randint(lo, hi)]: the next draw, brought into [lo, hi). *)
Definition randint (lo hi : Z) : M Z :=
  fun s => match draws s with
           | [] => (Diverge, s)
           | d :: ds => (Ok (lo + d mod (hi - lo)), set_draws ds s)
           end.

(** Run a method of another object [o], then come back to the caller. *)
Definition call_on {A} (o : self) (m : M A) : M A :=
  fun s => let '(r, s') := m (set_this o s) in (r, set_this (this s) s').

(** Truth value of what [place_coin] and [check_mistake] return. *)
Definition truthy (r : option bool) : bool :=
  match r with Some true => true | _ => false end.

(** [w == v] for the result of [check_win]. *)
Definition is_val (w : option Z) (v : Z) : bool :=
  match w with Some x => x =? v | None => false end.

(** [range(lo, hi)] *)
Definition range (lo hi : nat) : list Z := map Z.of_nat (seq lo (hi - lo)).

(** A [for] loop whose body may [return]: [Some a] leaves the function with
    [a], [None] goes on with the next element. *)
Fixpoint for_return {X A} (xs : list X) (body : X -> M (option A)) : M (option A) :=
  match xs with
  | [] => ret None
  | x :: xs' =>
      do r <- body x ;;
      match r with
      | Some a => ret (Some a)
      | None => for_return xs' body
      end
  end.

(** ** Connect4 methods on [self] *)

(** [Connect4.__init__] (the pygame set-up has no effect on the model). *)
Definition Connect4_init (num_players : Z) (bot_difficulty : option string) : M self :=
  do r <- alloc zeros ;;
  ret (mkSelf r 0 false num_players bot_difficulty).

Definition check_move_allowed (column : Z) : M bool :=
  do s <- get_state ;;
  do b <- load (container (this s)) ;;
  lift (Board.check_move_allowed b column).

Definition place_coin (column player : Z) : M (option bool) :=
  do s <- get_state ;;
  do b <- load (container (this s)) ;;
  do p <- lift (Board.place_coin b column player) ;;
  match snd p with
  | Some res => run store (container (this s)) (fst p) ;; ret (Some res)
  | None => ret None
  end.

Definition check_win (player : Z) : M (option Z) :=
  do s <- get_state ;;
  do b <- load (container (this s)) ;;
  ret (Board.check_win b player).

(** ** Bot methods *)

(** [Bot.__init__]: [super().__init__(1, difficulty)]. *)
Definition Bot_init (difficulty : option string) : M self :=
  Connect4_init 1 difficulty.

(** [self._Connect4__container = curr_board.copy()] *)
Definition set_current_board (curr_board : nat) : M unit :=
  do b <- load curr_board ;;
  do r <- alloc b ;;
  modify_this (set_container r).

(** The [while True] loop of [random_move]; every round takes one draw, so
    [fuel] above the number of remaining draws is never used up. *)
Fixpoint random_loop (fuel : nat) : M Z :=
  match fuel with
  | O => diverge
  | S fuel' =>
      do col <- randint 0 7 ;;
      do r <- place_coin col 2 ;;
      if truthy r then ret col else random_loop fuel'
  end.

Definition random_move (curr_board : nat) : M Z :=
  run set_current_board curr_board ;;
  do s <- get_state ;;
  random_loop (S (length (draws s))).

Definition place_4th_coin (curr_board : nat) : M (option Z) :=
  run set_current_board curr_board ;;
  for_return (rev (range 1 3)) (fun player =>
    for_return (range 0 7) (fun col =>
      do r <- place_coin col player ;;
      if truthy r then
        do w <- check_win player ;;
        if is_val w player then ret (Some col)
        else run set_current_board curr_board ;; ret None
      else ret None)).

Definition check_mistake (column : Z) (curr_board : nat) : M (option bool) :=
  run set_current_board curr_board ;;
  do r <- place_coin column 2 ;;
  if truthy r then
    do s <- get_state ;;
    let updated_board := container (this s) in
    for_return (range 0 7) (fun col =>
      do r1 <- place_coin col 1 ;;
      if truthy r1 then
        do w <- check_win 1 ;;
        if is_val w 1 then ret (Some true)
        else run set_current_board updated_board ;; ret None
      else ret None)
  else ret None.

(** The counting loop of the ['hard'] branch. *)
Fixpoint count_available (cols : list Z) (curr_board : nat) (available_moves : Z) : M Z :=
  match cols with
  | [] => ret available_moves
  | col :: cols' =>
      do ok <- check_move_allowed col ;;
      if ok then
        do m <- check_mistake col curr_board ;;
        if negb (truthy m) then count_available cols' curr_board (available_moves + 1)
        else count_available cols' curr_board available_moves
      else count_available cols' curr_board available_moves
  end.

(** The [while True] loop of the ['hard'] branch; each round runs
    [random_move], which takes at least one draw. *)
Fixpoint safe_random_loop (fuel : nat) (curr_board : nat) : M Z :=
  match fuel with
  | O => diverge
  | S fuel' =>
      do rand_move <- random_move curr_board ;;
      do m <- check_mistake rand_move curr_board ;;
      if negb (truthy m) then ret rand_move else safe_random_loop fuel' curr_board
  end.

Definition is_difficulty (d : option string) (name : string) : bool :=
  match d with Some x => String.eqb x name | None => false end.

(** [bot_move]: [Some col], or [None] when no branch of the [if] applies. *)
Definition bot_move (curr_board : nat) : M (option Z) :=
  do s <- get_state ;;
  let d := bot_difficulty (this s) in
  if is_difficulty d "easy" then
    do col <- random_move curr_board ;; ret (Some col)
  else if is_difficulty d "moderate" then
    do res <- place_4th_coin curr_board ;;
    match res with
    | Some col => ret (Some col)
    | None => do col <- random_move curr_board ;; ret (Some col)
    end
  else if is_difficulty d "hard" then
    do res <- place_4th_coin curr_board ;;
    match res with
    | Some col => ret (Some col)
    | None =>
        do available_moves <- count_available (range 0 7) curr_board 0 ;;
        if 0 <? available_moves then
          do s1 <- get_state ;;
          do col <- safe_random_loop (S (length (draws s1))) curr_board ;;
          ret (Some col)
        else do col <- random_move curr_board ;; ret (Some col)
    end
  else ret None.

(** ** The event loop of the game object *)

Inductive event :=
| QUIT
| MOUSEMOTION (posx : Z)
| MOUSEBUTTONDOWN (posx : Z)
| OTHER.

(** The two tests that follow every successful placement by [player]:
    [check_win(player) == player], then [check_win(1) == 3]. *)
Definition after_placement (player : Z) : M unit :=
  do w <- check_win player ;;
  run (if is_val w player then modify_this (set_game_over true) else ret tt) ;;
  do d <- check_win 1 ;;
  if is_val d 3 then modify_this (set_game_over true) else ret tt.

(** The bot's reply in single-player mode.  [bot_move] returning [None]
    makes [place_coin(None, 2)] test the truth of a whole array row, which
    numpy refuses with [ValueError]. *)
Definition bot_turn : M unit :=
  do s <- get_state ;;
  do bot <- Bot_init (bot_difficulty (this s)) ;;
  do col <- call_on bot (bot_move (container (this s))) ;;
  match col with
  | Some c =>
      do r <- place_coin c 2 ;;
      if truthy r then after_placement 2 else ret tt
  | None => raise ValueError
  end.

(** The [MOUSEBUTTONDOWN] branch; the answer [true] stands for [break]. *)
Definition mouse_button_down (posx : Z) : M bool :=
  do s <- get_state ;;
  let col := posx / SQUARESIZE in
  let player := if turn (this s) =? 0 then 1 else 2 in
  do r <- place_coin col player ;;
  if truthy r then
    run after_placement player ;;
    do s1 <- get_state ;;
    if num_players (this s1) =? 2 then
      run modify_this (fun o => set_turn ((turn o + 1) mod 2) o) ;;
      ret false
    else if negb (game_over (this s1)) then
      run bot_turn ;; ret false
    else ret false
  else ret true.

(** [event_handler] over the events [pygame.event.get()] delivered. *)
Fixpoint event_handler (events : list event) : M unit :=
  match events with
  | [] => ret tt
  | QUIT :: _ => raise SystemExit
  | MOUSEBUTTONDOWN posx :: events' =>
      do brk <- mouse_button_down posx ;;
      if brk then ret tt else event_handler events'
  | _ :: events' => event_handler events'
  end.

(** [gameloop], fed one batch of events per round. *)
Fixpoint gameloop (batches : list (list event)) : M unit :=
  do s <- get_state ;;
  if game_over (this s) then ret tt
  else match batches with
       | [] => diverge
       | events :: batches' => run event_handler events ;; gameloop batches'
       end.

(** The parsed command line and the [__main__] block: [parser.error] leaves
    the program through [SystemExit]. *)
Record arguments := mkArguments {
  number_of_players : Z;
  arg_bot_difficulty : option string
}.

Definition is_None {A} (x : option A) : bool :=
  match x with None => true | Some _ => false end.

Definition main (argument_list : arguments) (batches : list (list event)) : M unit :=
  if (number_of_players argument_list =? 1)
     && is_None (arg_bot_difficulty argument_list)
  then raise SystemExit
  else
    do game <- Connect4_init (number_of_players argument_list)
                             (arg_bot_difficulty argument_list) ;;
    call_on game (gameloop batches).

(** ** Vocabulary of the specification *)

Inductive orientation := Horizontal | Vertical | DownRight | UpRight.

(** The four cells of a run; [(r, c)] is its leftmost cell, except for
    [UpRight] where [r] is the row of its rightmost (top) cell. *)
Definition cells_of (o : orientation) (r c : nat) : list (nat * nat) :=
  match o with
  | Horizontal => [(r, c); (r, c + 1); (r, c + 2); (r, c + 3)]
  | Vertical => [(r, c); (r + 1, c); (r + 2, c); (r + 3, c)]
  | DownRight => [(r, c); (r + 1, c + 1); (r + 2, c + 2); (r + 3, c + 3)]
  | UpRight => [(r + 3, c); (r + 2, c + 1); (r + 1, c + 2); (r, c + 3)]
  end%nat.

Definition owned (b : board) (p : Z) (rc : nat * nat) : Prop :=
  (fst rc < num_rows)%nat /\ (snd rc < num_columns)%nat /\ cell b (fst rc) (snd rc) = p.

(** Player [p] has four in a row somewhere on the grid. *)
Definition has_four (b : board) (p : Z) : Prop :=
  exists o r c, Forall (owned b p) (cells_of o r c).

(** Every cell of the board is occupied. *)
Definition full (b : board) : Prop :=
  forall r c, (r < num_rows)%nat -> (c < num_columns)%nat -> cell b r c <> 0.

(** Number of occupied cells of column [j]. *)
Definition occupied (b : board) (j : nat) : nat :=
  length (List.filter (fun r => negb (cell b r j =? 0)) (seq 0 num_rows)).

(** Coins obey gravity in column [j]: nothing is empty below a coin. *)
Definition stacked (b : board) (j : nat) : Prop :=
  forall r, (r + 1 < num_rows)%nat -> cell b r j <> 0 -> cell b (r + 1) j <> 0.

(** The boards a game builds: [np.zeros((6, 7))], then coins of the players
    1 and 2 placed into columns 0..6. *)
Inductive played : board -> Prop :=
| played_zeros : played zeros
| played_place (b b' : board) (column player : Z) (res : option bool) :
    played b -> 0 <= column < 7 -> player = 1 \/ player = 2 ->
    Board.place_coin b column player = Ok (b', res) ->
    played b'.

(** Placing [player]'s coin in [col] of [b] succeeds and makes [player] win. *)
Definition wins_by (b : board) (player col : Z) : bool :=
  match Board.place_coin b col player with
  | Ok (b', Some true) => is_val (Board.check_win b' player) player
  | _ => false
  end.

(** The unsafe move of the specification: after the bot's coin goes into
    [column], some single placement of the opponent wins. *)
Definition unsafe_move (b : board) (column : Z) : bool :=
  match Board.place_coin b column 2 with
  | Ok (b1, Some true) => existsb (wins_by b1 1) (range 0 7)
  | _ => false
  end.

(** First element of [xs] on which [f] answers. *)
Fixpoint first_some {X A} (f : X -> option A) (xs : list X) : option A :=
  match xs with
  | [] => None
  | x :: xs' => match f x with Some a => Some a | None => first_some f xs' end
  end.

Definition winning_column (b : board) (player : Z) : option Z :=
  first_some (fun col => if wins_by b player col then Some col else None) (range 0 7).

(** Boards used as concrete inputs. *)

(** Player 1 holds columns 1 and 2 of the bottom row, the bot column 6. *)
Definition two_in_a_row : board :=
  [ [0;0;0;0;0;0;0]; [0;0;0;0;0;0;0]; [0;0;0;0;0;0;0];
    [0;0;0;0;0;0;0]; [0;0;0;0;0;0;0]; [0;1;1;0;0;0;2] ].

(** Column 0 is full. *)
Definition full_column : board :=
  [ [1;0;0;0;0;0;0]; [2;0;0;0;0;0;0]; [1;0;0;0;0;0;0];
    [2;0;0;0;0;0;0]; [1;0;0;0;0;0;0]; [2;0;0;0;0;0;0] ].

(** The bot (2) wins in column 3; player 1 would win in column 0. *)
Definition win_or_block : board :=
  [ [0;0;0;0;0;0;0]; [0;0;0;0;0;0;0]; [0;0;0;0;0;0;0];
    [1;0;0;0;0;0;0]; [1;0;0;0;0;0;0]; [1;0;0;0;2;2;2] ].

(** A full board on which nobody has four in a row. *)
Definition drawn_board : board :=
  [ [1;1;2;2;1;1;2]; [2;2;1;1;2;2;1]; [1;1;2;2;1;1;2];
    [2;2;1;1;2;2;1]; [1;1;2;2;1;1;2]; [2;2;1;1;2;2;1] ].

(** Player 1 holds four cells of the rising diagonal from row 5, column 0. *)
Definition rising_run : board :=
  [ [0;0;0;0;0;0;0]; [0;0;0;0;0;0;0]; [0;0;0;1;0;0;0];
    [0;0;1;2;0;0;0]; [0;1;2;2;0;0;0]; [1;2;2;1;0;0;0] ].

(** The state before any object exists. *)
Definition no_object : state := mkState [] [] (mkSelf 0 0 false 0 None).

Definition start_state (b : board) (difficulty : option string) (ds : list Z) : state :=
  mkState [b] ds (mkSelf 0 0 false 1 difficulty).

(** ** Invariants of the bot's simulations *)

(** The bot's working copy equals [b] and is not the caller's array. *)
Definition simulating (curr : nat) (b : board) (s : state) : Prop :=
  heap s !! curr = Some b /\
  heap s !! container (this s) = Some b /\
  container (this s) <> curr.

Definition is_ok {A} (r : result A) : Prop :=
  match r with Ok _ => True | _ => False end.

(** Every array of the heap [h0] is still there, unchanged. *)
Definition keeps (h0 : list board) (s : state) : Prop :=
  forall r, (r < length h0)%nat -> heap s !! r = h0 !! r.

(** ... and the running object works on an array allocated after [h0]. *)
Definition detached (h0 : list board) (s : state) : Prop :=
  keeps h0 s /\ (length h0 <= container (this s))%nat.

(** A method that writes only through [self.__container]. *)
Definition private (h0 : list board) {A} (m : M A) : Prop :=
  forall s, detached h0 s ->
    keeps h0 (snd (m s)) /\ (is_ok (fst (m s)) -> detached h0 (snd (m s))).

(** A method that first takes a copy, whatever [self.__container] was. *)
Definition copying (h0 : list board) {A} (m : M A) : Prop :=
  forall s, keeps h0 s ->
    keeps h0 (snd (m s)) /\ (is_ok (fst (m s)) -> detached h0 (snd (m s))).

(** ** Vocabulary for the bot's choices *)

(** [check_move_allowed(col)] answers [True] on [b]. *)
Definition accepts (b : board) (col : Z) : bool :=
  match Board.check_move_allowed b col with
  | Ok true => true
  | _ => false
  end.

(** The column of the first draw that [b] accepts, each draw read as
    [np.random.randint(0, 7)] reads it. *)
Definition first_playable (b : board) (ds : list Z) : option Z :=
  first_some (fun d => if accepts b (0 + d mod (7 - 0)) then Some (0 + d mod (7 - 0)) else None)
             ds.

(** What [place_4th_coin] looks for: a win of player 2, else of player 1. *)
Definition win_or_block_column (b : board) : option Z :=
  match winning_column b 2 with
  | Some col => Some col
  | None => winning_column b 1
  end.

(** The running object is a bot of difficulty ['moderate'] or ['hard']. *)
Definition thinks_ahead (s : state) : Prop :=
  bot_difficulty (this s) = Some "moderate"%string \/
  bot_difficulty (this s) = Some "hard"%string.

(** Player 1 threatens column 3; the bot has no winning column. *)
Definition must_block : board :=
  [ [0;0;0;0;0;0;0]; [0;0;0;0;0;0;0]; [0;0;0;0;0;0;0];
    [0;0;0;0;0;0;0]; [0;0;0;0;0;0;0]; [1;1;1;0;2;2;0] ].

(** Every coin of [b] is still where it was in [b']. *)
Definition coins_kept (b b' : board) : Prop :=
  forall r c, cell b r c <> 0 -> cell b' r c = cell b r c.

(** What may happen to the attributes of the game object. *)
Definition evolves (o o' : self) : Prop :=
  container o' = container o /\
  num_players o' = num_players o /\
  bot_difficulty o' = bot_difficulty o /\
  (game_over o = true -> game_over o' = true) /\
  (num_players o <> 2 -> turn o' = turn o) /\
  (turn o = 0 \/ turn o = 1 -> turn o' = 0 \/ turn o' = 1).

(** One step of a session: the object evolves and its board only gains
    coins. *)
Definition session_step (s s' : state) : Prop :=
  evolves (this s) (this s') /\
  forall b, heap s !! container (this s) = Some b ->
    exists b', heap s' !! container (this s) = Some b' /\ coins_kept b b'.

Definition lawful {A} (m : M A) : Prop :=
  forall s, session_step s (snd (m s)).

(** A method that takes nothing from the random source. *)
Definition quiet {A} (m : M A) : Prop :=
  forall s, draws (snd (m s)) = draws s.

(** * Properties *)

(** ** Indexing *)

Section Indexing.

Lemma norm_index_inside (n : nat) (i : Z) :
  0 <= i < Z.of_nat n -> norm_index n i = Some (Z.to_nat i).
Proof.
  intros H. unfold norm_index.
  destruct (Z.leb_spec 0 i); [|lia]. destruct (Z.ltb_spec i (Z.of_nat n)); [|lia].
  reflexivity.
Qed.

Lemma norm_index_wraps (n : nat) (i : Z) :
  - Z.of_nat n <= i < 0 -> norm_index n i = Some (Z.to_nat (i + Z.of_nat n)).
Proof.
  intros H. unfold norm_index.
  destruct (Z.leb_spec 0 i); [lia|]. simpl.
  destruct (Z.leb_spec (- Z.of_nat n) i); [|lia]. destruct (Z.ltb_spec i 0); [|lia].
  reflexivity.
Qed.

Lemma norm_index_outside (n : nat) (i : Z) :
  i < - Z.of_nat n \/ Z.of_nat n <= i -> norm_index n i = None.
Proof.
  intros H. unfold norm_index.
  destruct (Z.leb_spec 0 i), (Z.ltb_spec i (Z.of_nat n)),
    (Z.leb_spec (- Z.of_nat n) i), (Z.ltb_spec i 0); simpl; try reflexivity; lia.
Qed.

Lemma norm_index_bound (n : nat) (i : Z) (j : nat) :
  norm_index n i = Some j -> (j < n)%nat.
Proof.
  unfold norm_index.
  destruct (Z.leb_spec 0 i), (Z.ltb_spec i (Z.of_nat n)),
    (Z.leb_spec (- Z.of_nat n) i), (Z.ltb_spec i 0); simpl;
    intros [= <-]; lia.
Qed.

Lemma wf_zeros : wf_board zeros.
Proof. split; [reflexivity | repeat constructor]. Qed.

Lemma wf_row (b : board) (i : nat) :
  wf_board b -> (i < num_rows)%nat ->
  exists row, b !! i = Some row /\ length row = num_columns.
Proof.
  intros [Hlen Hrows] Hi.
  destruct (lookup_lt_is_Some_2 b i) as [row Hrow]; [lia|].
  exists row. split; [assumption|].
  rewrite Forall_forall in Hrows. apply Hrows.
  eapply list_elem_of_lookup_2. eassumption.
Qed.

Lemma wf_lookup (b : board) (i j : nat) :
  wf_board b -> (i < num_rows)%nat -> (j < num_columns)%nat ->
  exists row, b !! i = Some row /\ row !! j = Some (cell b i j).
Proof.
  intros Hwf Hi Hj. destruct (wf_row b i Hwf Hi) as (row & Hrow & Hlen).
  exists row. split; [assumption|].
  destruct (lookup_lt_is_Some_2 row j) as [v Hv]; [lia|].
  unfold cell. rewrite !nth_lookup, Hrow. simpl. rewrite Hv. reflexivity.
Qed.

Lemma getitem_cell (b : board) (r c : Z) (i j : nat) :
  wf_board b -> norm_index num_rows r = Some i -> norm_index num_columns c = Some j ->
  getitem b r c = Ok (cell b i j).
Proof.
  intros Hwf Hr Hc. unfold getitem. rewrite Hr, Hc.
  destruct (wf_lookup b i j Hwf) as (row & -> & ->);
    eauto using norm_index_bound.
Qed.

Lemma getitem_outside (b : board) (r c : Z) :
  norm_index num_columns c = None -> getitem b r c = Raise IndexError.
Proof.
  intros Hc. unfold getitem. rewrite Hc. destruct (norm_index num_rows r); reflexivity.
Qed.

End Indexing.

(** ** Playability and placement on a board *)

Section Placement.

Lemma check_move_allowed_inside (b : board) (column : Z) :
  wf_board b -> 0 <= column < 7 ->
  Board.check_move_allowed b column = Ok (cell b 0 (Z.to_nat column) =? 0).
Proof.
  intros Hwf Hc. unfold Board.check_move_allowed.
  rewrite (getitem_cell b 0 column 0 (Z.to_nat column)); auto using norm_index_inside.
Qed.

Lemma check_move_allowed_wraps (b : board) (column : Z) :
  -7 <= column < 0 ->
  Board.check_move_allowed b column = Board.check_move_allowed b (7 + column).
Proof.
  intros Hc. unfold Board.check_move_allowed, getitem.
  rewrite (norm_index_wraps num_columns column) by (unfold num_columns; lia).
  rewrite (norm_index_inside num_columns (7 + column)) by (unfold num_columns; lia).
  replace (column + Z.of_nat num_columns) with (7 + column) by (unfold num_columns; lia).
  reflexivity.
Qed.


Lemma place_coin_refused (b : board) (column player v : Z) :
  getitem b 0 column = Ok v -> v <> 0 ->
  Board.place_coin b column player = Ok (b, None).
Proof.
  intros Hget Hv. unfold Board.place_coin, Board.check_move_allowed.
  rewrite Hget. simpl. destruct (Z.eqb_spec v 0); [contradiction | reflexivity].
Qed.

Lemma cell_setcell_same (b : board) (r c : nat) (v : Z) :
  wf_board b -> (r < num_rows)%nat -> (c < num_columns)%nat ->
  cell (setcell b r c v) r c = v.
Proof.
  intros Hwf Hr Hc. destruct (wf_row b r Hwf Hr) as (row & Hrow & Hlen).
  unfold cell, setcell. rewrite !nth_lookup, list_lookup_alter_eq, Hrow. simpl.
  rewrite list_lookup_insert_eq by lia. reflexivity.
Qed.

Lemma cell_setcell_other (b : board) (r c r' c' : nat) (v : Z) :
  (r', c') <> (r, c) -> cell (setcell b r c v) r' c' = cell b r' c'.
Proof.
  intros Hne. unfold cell, setcell. rewrite !nth_lookup.
  destruct (decide (r = r')) as [<-|Hr].
  - rewrite list_lookup_alter_eq. destruct (b !! r) as [row|]; simpl; [|reflexivity].
    rewrite list_lookup_insert_ne; [reflexivity | congruence].
  - rewrite list_lookup_alter_ne by assumption. reflexivity.
Qed.

Lemma wf_setcell (b : board) (r c : nat) (v : Z) :
  wf_board b -> wf_board (setcell b r c v).
Proof.
  intros [Hlen Hrows]. unfold setcell. split.
  - rewrite length_alter. assumption.
  - apply Forall_alter; [assumption|]. intros row _ Hrow.
    rewrite length_insert. assumption.
Qed.

(** The loop of [place_coin] stops on the lowest empty cell of a column
    whose top cell is empty. *)
Lemma landing_row_lowest_empty (b : board) (j : nat) :
  cell b 0 j = 0 ->
  (Board.landing_row b j < num_rows)%nat /\
  cell b (Board.landing_row b j) j = 0 /\
  forall r, (Board.landing_row b j < r < num_rows)%nat -> cell b r j <> 0.
Proof.
  intros Htop. unfold Board.landing_row, num_rows. simpl.
  destruct (Z.eqb_spec (cell b 5 j) 0) as [E5|E5];
  [|destruct (Z.eqb_spec (cell b 4 j) 0) as [E4|E4];
  [|destruct (Z.eqb_spec (cell b 3 j) 0) as [E3|E3];
  [|destruct (Z.eqb_spec (cell b 2 j) 0) as [E2|E2];
  [|destruct (Z.eqb_spec (cell b 1 j) 0) as [E1|E1];
  [|destruct (Z.eqb_spec (cell b 0 j) 0) as [E0|E0]; [|contradiction]]]]]];
  (split; [lia | split; [assumption|]]);
  intros r Hr;
  do 6 (destruct r as [|r]; [first [lia | assumption]|]); lia.
Qed.

(** In a column that obeys gravity the occupied cells are the lowest ones. *)
Lemma stacked_landing_row (b : board) (j : nat) :
  cell b 0 j = 0 -> stacked b j -> Board.landing_row b j = (5 - occupied b j)%nat.
Proof.
  intros Htop Hst.
  pose proof (Hst 0%nat) as S0. pose proof (Hst 1%nat) as S1.
  pose proof (Hst 2%nat) as S2. pose proof (Hst 3%nat) as S3.
  pose proof (Hst 4%nat) as S4. unfold num_rows in *. simpl in S0, S1, S2, S3, S4.
  unfold Board.landing_row, occupied, num_rows. simpl.
  destruct (Z.eqb_spec (cell b 0 j) 0) as [E0|E0]; [|contradiction].
  destruct (Z.eqb_spec (cell b 5 j) 0) as [E5|E5],
           (Z.eqb_spec (cell b 4 j) 0) as [E4|E4],
           (Z.eqb_spec (cell b 3 j) 0) as [E3|E3],
           (Z.eqb_spec (cell b 2 j) 0) as [E2|E2],
           (Z.eqb_spec (cell b 1 j) 0) as [E1|E1]; simpl;
    try reflexivity; exfalso;
    first [ apply S4; [lia | assumption | assumption]
          | apply S3; [lia | assumption | assumption]
          | apply S2; [lia | assumption | assumption]
          | apply S1; [lia | assumption | assumption]
          | apply S0; [lia | assumption | assumption] ].
Qed.

(** On a well-formed board a column in range is either refused or filled. *)
Lemma place_coin_inside (b : board) (column player : Z) :
  wf_board b -> 0 <= column < 7 ->
  Board.place_coin b column player =
  if cell b 0 (Z.to_nat column) =? 0
  then Ok (setcell b (Board.landing_row b (Z.to_nat column)) (Z.to_nat column) player,
           Some true)
  else Ok (b, None).
Proof.
  intros Hwf Hc. unfold Board.place_coin.
  rewrite check_move_allowed_inside by assumption. simpl.
  rewrite (norm_index_inside num_columns column) by (unfold num_columns; lia).
  destruct (cell b 0 (Z.to_nat column) =? 0); reflexivity.
Qed.

(** Gravity holds on the empty board and every placement keeps it, so it
    holds on every board the game builds ([played_invariant]). *)
Lemma cell_zeros (r c : nat) : cell zeros r c = 0.
Proof.
  unfold cell, zeros, num_rows, num_columns. simpl.
  do 6 (destruct r as [|r];
        [do 7 (destruct c as [|c]; [reflexivity|]); destruct c; reflexivity|]).
  destruct r, c; reflexivity.
Qed.

Lemma stacked_zeros (j : nat) : stacked zeros j.
Proof. intros r _ H. exfalso. apply H. apply cell_zeros. Qed.

Lemma place_coin_keeps_stacked (b b' : board) (column player : Z) (res : option bool) :
  wf_board b -> 0 <= column < 7 -> player <> 0 ->
  (forall j, stacked b j) ->
  Board.place_coin b column player = Ok (b', res) ->
  wf_board b' /\ forall j, stacked b' j.
Proof.
  intros Hwf Hc Hp Hst Hplace. rewrite place_coin_inside in Hplace by assumption.
  destruct (Z.eqb_spec (cell b 0 (Z.to_nat column)) 0) as [Htop|_];
    [|injection Hplace as <- _; split; assumption].
  injection Hplace as <- _. split; [apply wf_setcell; assumption|].
  destruct (landing_row_lowest_empty b (Z.to_nat column) Htop) as (Hlt & _ & Hbelow).
  set (L := Board.landing_row b (Z.to_nat column)) in *.
  intros j r Hr Hocc.
  destruct (decide ((S r, j) = (L, Z.to_nat column))) as [E|Hne1].
  - injection E as E1 E2. subst j. replace (r + 1)%nat with L by lia.
    rewrite cell_setcell_same; [assumption | assumption | assumption |].
    unfold num_columns. lia.
  - rewrite cell_setcell_other by (replace (r + 1)%nat with (S r) by lia; assumption).
    destruct (decide ((r, j) = (L, Z.to_nat column))) as [E|Hne2].
    + injection E as E1 E2. subst r j. apply Hbelow. lia.
    + rewrite cell_setcell_other in Hocc by assumption. apply Hst; assumption.
Qed.

Lemma played_invariant (b : board) :
  played b -> wf_board b /\ forall j, stacked b j.
Proof.
  induction 1 as [|b b' column player res _ [IHwf IHst] Hc Hp Hplace].
  - split; [apply wf_zeros | apply stacked_zeros].
  - apply (place_coin_keeps_stacked b b' column player res); auto. lia.
Qed.

End Placement.

(** ** Win and draw detection *)

Section Detection.

Lemma existsb_seq (f : nat -> bool) (a n : nat) :
  existsb f (seq a n) = true <-> exists i, (a <= i < a + n)%nat /\ f i = true.
Proof.
  rewrite existsb_exists. split; intros (i & Hi & Hf); exists i; split; auto;
    apply in_seq; assumption.
Qed.

Lemma chain4_true (a b c d p : Z) :
  Board.chain4 a b c d p = true <-> a = p /\ b = p /\ c = p /\ d = p.
Proof.
  unfold Board.chain4. rewrite !andb_true_iff, !Z.eqb_eq. split.
  - intros [[[-> ->] ->] ->]. auto.
  - intros (-> & -> & -> & ->). auto.
Qed.

Lemma Forall_four {A} (P : A -> Prop) (w x y z : A) :
  Forall P [w; x; y; z] <-> P w /\ P x /\ P y /\ P z.
Proof.
  split.
  - intros H. inversion_clear H as [|? ? Hw H1]. inversion_clear H1 as [|? ? Hx H2].
    inversion_clear H2 as [|? ? Hy H3]. inversion_clear H3 as [|? ? Hz _]. auto.
  - intros (Hw & Hx & Hy & Hz). repeat constructor; assumption.
Qed.

Ltac run_bounds := unfold owned, num_rows, num_columns in *; cbn [fst snd] in *.

Lemma horizontal_run (b : board) (p : Z) :
  Board.horizontal b p = true <-> exists r c, Forall (owned b p) (cells_of Horizontal r c).
Proof.
  unfold Board.horizontal. rewrite existsb_seq. split.
  - intros (c & Hc & H). apply existsb_seq in H as (r & Hr & H).
    apply chain4_true in H as (H0 & H1 & H2 & H3).
    exists r, c. apply Forall_four. run_bounds. repeat split; auto; lia.
  - intros (r & c & H). apply Forall_four in H as (H0 & H1 & H2 & H3). run_bounds.
    exists c. split; [lia|]. apply existsb_seq. exists r. split; [lia|].
    apply chain4_true. tauto.
Qed.

Lemma vertical_run (b : board) (p : Z) :
  Board.vertical b p = true <-> exists r c, Forall (owned b p) (cells_of Vertical r c).
Proof.
  unfold Board.vertical. rewrite existsb_seq. split.
  - intros (c & Hc & H). apply existsb_seq in H as (r & Hr & H).
    apply chain4_true in H as (H0 & H1 & H2 & H3).
    exists r, c. apply Forall_four. run_bounds. repeat split; auto; lia.
  - intros (r & c & H). apply Forall_four in H as (H0 & H1 & H2 & H3). run_bounds.
    exists c. split; [lia|]. apply existsb_seq. exists r. split; [lia|].
    apply chain4_true. tauto.
Qed.

Lemma decreasing_diagonal_run (b : board) (p : Z) :
  Board.decreasing_diagonal b p = true <->
  exists r c, Forall (owned b p) (cells_of DownRight r c).
Proof.
  unfold Board.decreasing_diagonal. rewrite existsb_seq. split.
  - intros (c & Hc & H). apply existsb_seq in H as (r & Hr & H).
    apply chain4_true in H as (H0 & H1 & H2 & H3).
    exists r, c. apply Forall_four. run_bounds. repeat split; auto; lia.
  - intros (r & c & H). apply Forall_four in H as (H0 & H1 & H2 & H3). run_bounds.
    exists c. split; [lia|]. apply existsb_seq. exists r. split; [lia|].
    apply chain4_true. tauto.
Qed.

Lemma increasing_diagonal_run (b : board) (p : Z) :
  Board.increasing_diagonal b p = true <->
  exists r c, Forall (owned b p) (cells_of UpRight r c).
Proof.
  unfold Board.increasing_diagonal. rewrite existsb_seq. split.
  - intros (c & Hc & H). apply existsb_seq in H as (r & Hr & H).
    apply chain4_true in H as (H0 & H1 & H2 & H3).
    exists (r - 3)%nat, c. apply Forall_four. run_bounds.
    replace (r - 3 + 3)%nat with r by lia.
    replace (r - 3 + 2)%nat with (r - 1)%nat by lia.
    replace (r - 3 + 1)%nat with (r - 2)%nat by lia.
    repeat split; auto; lia.
  - intros (r & c & H). apply Forall_four in H as (H0 & H1 & H2 & H3). run_bounds.
    exists c. split; [lia|]. apply existsb_seq. exists (r + 3)%nat. split; [lia|].
    replace (r + 3 - 1)%nat with (r + 2)%nat by lia.
    replace (r + 3 - 2)%nat with (r + 1)%nat by lia.
    replace (r + 3 - 3)%nat with r by lia.
    apply chain4_true. tauto.
Qed.

Lemma has_four_scan (b : board) (p : Z) :
  has_four b p <->
  Board.horizontal b p || Board.vertical b p
  || Board.decreasing_diagonal b p || Board.increasing_diagonal b p = true.
Proof.
  rewrite !orb_true_iff, horizontal_run, vertical_run,
    decreasing_diagonal_run, increasing_diagonal_run.
  unfold has_four. split.
  - intros ([] & r & c & H); eauto 6.
  - intros [[[(r & c & H)|(r & c & H)]|(r & c & H)]|(r & c & H)]; eauto.
Qed.

Lemma check_win_cases (b : board) (p : Z) :
  Board.check_win b p =
  if Board.horizontal b p || Board.vertical b p
     || Board.decreasing_diagonal b p || Board.increasing_diagonal b p
  then Some p
  else if Board.np_all b then Some 3 else None.
Proof.
  unfold Board.check_win.
  destruct (Board.horizontal b p), (Board.vertical b p),
    (Board.decreasing_diagonal b p), (Board.increasing_diagonal b p); reflexivity.
Qed.

Lemma has_four_wins (b : board) (p : Z) :
  has_four b p -> Board.check_win b p = Some p.
Proof.
  intros H. apply has_four_scan in H. rewrite check_win_cases, H. reflexivity.
Qed.

Lemma np_all_full (b : board) : wf_board b -> Board.np_all b = true <-> full b.
Proof.
  intros Hwf. unfold Board.np_all, full. rewrite forallb_forall. split.
  - intros H r c Hr Hc. destruct (wf_lookup b r c Hwf Hr Hc) as (row & Hrow & Hv).
    assert (Hin : In row b) by (apply list_elem_of_In; eapply list_elem_of_lookup_2; eauto).
    specialize (H row Hin). rewrite forallb_forall in H.
    assert (Hin' : In (cell b r c) row)
      by (apply list_elem_of_In; eapply list_elem_of_lookup_2; eauto).
    specialize (H _ Hin'). apply negb_true_iff in H. apply Z.eqb_neq in H. assumption.
  - intros H row Hin. apply forallb_forall. intros v Hv.
    apply list_elem_of_In, list_elem_of_lookup in Hin as [i Hi].
    apply list_elem_of_In, list_elem_of_lookup in Hv as [j Hj].
    assert (Hir : (i < num_rows)%nat).
    { destruct Hwf as [<- _]. eapply lookup_lt_Some; eauto. }
    destruct (wf_row b i Hwf Hir) as (row' & Hrow' & Hlen).
    assert (row' = row) by congruence. subst row'.
    assert (Hjc : (j < num_columns)%nat).
    { rewrite <- Hlen. eapply lookup_lt_Some; eauto. }
    specialize (H i j Hir Hjc). unfold cell in H. rewrite !nth_lookup, Hi in H.
    simpl in H. rewrite Hj in H. simpl in H.
    apply negb_true_iff, Z.eqb_neq. assumption.
Qed.

End Detection.

(** ** The methods on the heap *)

Section Methods.

Lemma set_current_board_run (s : state) (curr : nat) (b : board) :
  heap s !! curr = Some b ->
  set_current_board curr s =
  (Ok tt, mkState (heap s ++ [b]) (draws s) (set_container (length (heap s)) (this s))).
Proof.
  intros H. unfold set_current_board, bind, load, alloc, modify_this. rewrite H.
  reflexivity.
Qed.

Lemma set_current_board_dangling (s : state) (curr : nat) :
  heap s !! curr = None -> set_current_board curr s = (Raise IndexError, s).
Proof.
  intros H. unfold set_current_board, bind, load. rewrite H. reflexivity.
Qed.

Lemma check_move_allowed_run (s : state) (b : board) (column : Z) :
  heap s !! container (this s) = Some b ->
  check_move_allowed column s = (Board.check_move_allowed b column, s).
Proof.
  intros H. unfold check_move_allowed, bind, get_state, load, lift. rewrite H.
  destruct (Board.check_move_allowed b column); reflexivity.
Qed.

Lemma check_win_run (s : state) (b : board) (player : Z) :
  heap s !! container (this s) = Some b ->
  check_win player s = (Ok (Board.check_win b player), s).
Proof.
  intros H. unfold check_win, bind, get_state, load, ret. rewrite H. reflexivity.
Qed.

Lemma place_coin_run (s : state) (b : board) (column player : Z) :
  heap s !! container (this s) = Some b ->
  place_coin column player s =
  match Board.place_coin b column player with
  | Ok (b', Some res) =>
      (Ok (Some res), set_heap (<[container (this s) := b']> (heap s)) s)
  | Ok (_, None) => (Ok None, s)
  | Raise e => (Raise e, s)
  | Diverge => (Diverge, s)
  end.
Proof.
  intros H. unfold place_coin, bind, get_state, load, lift, store, ret. rewrite H.
  destruct (Board.place_coin b column player) as [[b' [res|]]|e|]; reflexivity.
Qed.

Lemma in_range (lo hi : nat) (x : Z) :
  In x (range lo hi) <-> Z.of_nat lo <= x < Z.of_nat hi.
Proof.
  unfold range. rewrite in_map_iff. split.
  - intros (i & <- & Hi). apply in_seq in Hi. lia.
  - intros H. exists (Z.to_nat x). split; [lia|]. apply in_seq. lia.
Qed.

(** A [for] loop with [return] yields the first answer of its body, as long
    as every round that does not return keeps the invariant [I]. *)
Lemma for_return_first {X A} (I : state -> Prop) (body : X -> M (option A))
    (hit : X -> option A) (xs : list X) :
  (forall x s, In x xs -> I s ->
     fst (body x s) = Ok (hit x) /\ (hit x = None -> I (snd (body x s)))) ->
  forall s, I s ->
    fst (for_return xs body s) = Ok (first_some hit xs) /\
    (first_some hit xs = None -> I (snd (for_return xs body s))).
Proof.
  induction xs as [|x xs IH]; intros Hbody s Hs.
  - simpl. auto.
  - destruct (Hbody x s (or_introl eq_refl) Hs) as [Hfst Hinv].
    simpl. unfold bind. destruct (body x s) as [r s1]. simpl in Hfst, Hinv.
    rewrite Hfst. destruct (hit x) as [a|].
    + simpl. split; [reflexivity | discriminate].
    + apply IH; [|auto]. intros y s' Hy. apply Hbody. right. assumption.
Qed.

Lemma simulating_after_copy (s : state) (curr : nat) (b : board) :
  heap s !! curr = Some b ->
  simulating curr b (snd (set_current_board curr s)).
Proof.
  intros H. rewrite (set_current_board_run s curr b H). unfold simulating. simpl.
  pose proof (lookup_lt_Some _ _ _ H) as Hlt. repeat split.
  - rewrite lookup_app_l; assumption.
  - rewrite list_lookup_middle; reflexivity.
  - lia.
Qed.


Lemma bind_ok {A B} (m : M A) (k : A -> M B) (s s' : state) (a : A) :
  m s = (Ok a, s') -> bind m k s = k a s'.
Proof. intros H. unfold bind. rewrite H. reflexivity. Qed.

Lemma simulate_column (curr : nat) (b : board) (player col : Z) (s : state) :
  wf_board b -> 0 <= col < 7 -> simulating curr b s ->
  let body :=
    (do r <- place_coin col player ;;
     if truthy r then
       do w <- check_win player ;;
       if is_val w player then ret (Some col)
       else run set_current_board curr ;; ret None
     else ret None) in
  fst (body s) = Ok (if wins_by b player col then Some col else None) /\
  (wins_by b player col = false -> simulating curr b (snd (body s))).
Proof.
  intros Hwf Hcol (Hc & Hk & Hne) body. subst body. unfold bind.
  rewrite (place_coin_run s b col player Hk). unfold wins_by.
  rewrite place_coin_inside by assumption.
  pose proof (lookup_lt_Some _ _ _ Hk) as Hlt.
  destruct (cell b 0 (Z.to_nat col) =? 0).
  - set (b' := setcell b _ _ player). cbn [truthy].
    erewrite check_win_run by (simpl; apply list_lookup_insert_eq; exact Hlt).
    destruct (is_val (Board.check_win b' player) player).
    + simpl. split; [reflexivity | discriminate].
    + erewrite set_current_board_run
        by (simpl; rewrite list_lookup_insert_ne by exact Hne; exact Hc).
      simpl. split; [reflexivity|]. intros _. unfold simulating. simpl.
      pose proof (lookup_lt_Some _ _ _ Hc) as Hlt'. repeat split.
      * rewrite lookup_app_l by (rewrite length_insert; assumption).
        rewrite list_lookup_insert_ne by exact Hne. exact Hc.
      * rewrite list_lookup_middle; reflexivity.
      * rewrite length_insert. lia.
  - simpl. split; [reflexivity|]. intros _. repeat split; assumption.
Qed.

Lemma place_4th_coin_result (s : state) (curr : nat) (b : board) :
  heap s !! curr = Some b -> wf_board b ->
  fst (place_4th_coin curr s) =
    Ok (match winning_column b 2 with
        | Some col => Some col
        | None => winning_column b 1
        end) /\
  (winning_column b 2 = None -> winning_column b 1 = None ->
   simulating curr b (snd (place_4th_coin curr s))).
Proof.
  intros Hc Hwf. unfold place_4th_coin.
  pose proof (simulating_after_copy s curr b Hc) as Hsim.
  rewrite (bind_ok _ _ _ _ _ (set_current_board_run s curr b Hc)).
  rewrite (set_current_board_run s curr b Hc) in Hsim. simpl in Hsim.
  match goal with |- context [for_return ?xs ?body ?s1] =>
    destruct (for_return_first (simulating curr b) body (winning_column b) xs) with (s := s1)
      as [Hres Hinv]
  end.
  - intros player s1 _ Hs1.
    apply (for_return_first (simulating curr b) _
             (fun col => if wins_by b player col then Some col else None)); [|assumption].
    intros col s2 Hcol Hs2. apply in_range in Hcol.
    destruct (simulate_column curr b player col s2 Hwf Hcol Hs2) as [H1 H2].
    split; [exact H1|]. intros Hnone. apply H2.
    destruct (wins_by b player col); [discriminate | reflexivity].
  - assumption.
  - change (rev (range 1 3)) with [2; 1] in *.
    destruct (for_return _ _ _) as [r s2]. simpl in Hres, Hinv. subst r.
    cbn [fst snd first_some]. split.
    + destruct (winning_column b 2); [reflexivity|].
      destruct (winning_column b 1); reflexivity.
    + intros H2 H1. apply Hinv. rewrite H2, H1. reflexivity.
Qed.
Lemma winning_column_least (b : board) (player c : Z) :
  0 <= c < 7 -> wins_by b player c = true ->
  (forall c', 0 <= c' < c -> wins_by b player c' = false) ->
  winning_column b player = Some c.
Proof.
  intros Hc Hwin Hleast. unfold winning_column, range.
  assert (G : forall n a, (a <= Z.to_nat c < a + n)%nat ->
            (forall c', Z.of_nat a <= c' < c -> wins_by b player c' = false) ->
            first_some (fun col => if wins_by b player col then Some col else None)
              (map Z.of_nat (seq a n)) = Some c).
  { induction n as [|n IH]; intros a Ha Hbelow; [lia|]. simpl.
    destruct (decide (Z.of_nat a = c)) as [->|Hne].
    - rewrite Hwin. reflexivity.
    - rewrite Hbelow by lia. apply IH; [lia|]. intros c' Hc'. apply Hbelow. lia. }
  apply G; [lia|]. intros c' Hc'. apply Hleast. lia.
Qed.

End Methods.

(** ** The moderate policy: winning before blocking *)

(** C1: when some playable column completes four in a row for the bot
    (player 2), [place_4th_coin] returns the smallest such column [c]: the
    bot's own placements are tried over the columns 0..6 in ascending order
    before any blocking placement, whatever player 1 could win. *)
Theorem place_4th_coin_own_win_first (s : state) (curr : nat) (b : board) (c : Z) :
  heap s !! curr = Some b -> wf_board b -> 0 <= c < 7 ->
  wins_by b 2 c = true ->
  (forall c', 0 <= c' < c -> wins_by b 2 c' = false) ->
  fst (place_4th_coin curr s) = Ok (Some c).
Proof.
  intros Hcurr Hwf Hc Hwin Hleast.
  destruct (place_4th_coin_result s curr b Hcurr Hwf) as [-> _].
  rewrite (winning_column_least b 2 c Hc Hwin Hleast). reflexivity.
Qed.

Lemma place_4th_coin_own_win_first_witness :
  fst (place_4th_coin 0 (start_state win_or_block (Some "moderate"%string) [])) = Ok (Some 3).
Proof.
  apply (place_4th_coin_own_win_first _ 0%nat win_or_block 3).
  - reflexivity.
  - split; [reflexivity | repeat constructor].
  - lia.
  - vm_compute. reflexivity.
  - intros c' Hc'. assert (E : c' = 0 \/ c' = 1 \/ c' = 2) by lia.
    destruct E as [-> | [-> | ->]]; vm_compute; reflexivity.
Defined.


(** ** The caller's board is never written *)

Section Frame.

Variable h0 : list board.

Lemma keeps_length (s : state) : keeps h0 s -> (length h0 <= length (heap s))%nat.
Proof.
  intros H. destruct (Nat.le_gt_cases (length h0) (length (heap s))) as [|Hlt]; [assumption|].
  exfalso. specialize (H (length (heap s)) Hlt).
  rewrite (lookup_ge_None_2 (heap s)) in H by lia.
  symmetry in H. apply lookup_ge_None_1 in H. lia.
Qed.

Lemma copying_private {A} (m : M A) : copying h0 m -> private h0 m.
Proof. intros H s [Hk _]. exact (H s Hk). Qed.

Lemma private_bind {A B} (m : M A) (k : A -> M B) :
  private h0 m -> (forall a, private h0 (k a)) -> private h0 (bind m k).
Proof.
  intros Hm Hk s Hs. unfold bind. destruct (Hm s Hs) as [H1 H2].
  destruct (m s) as [[a| |] s1]; simpl in *; try (split; [assumption | contradiction]).
  apply Hk. apply H2. exact I.
Qed.

Lemma copying_bind {A B} (m : M A) (k : A -> M B) :
  copying h0 m -> (forall a, private h0 (k a)) -> copying h0 (bind m k).
Proof.
  intros Hm Hk s Hs. unfold bind. destruct (Hm s Hs) as [H1 H2].
  destruct (m s) as [[a| |] s1]; simpl in *; try (split; [assumption | contradiction]).
  apply Hk. apply H2. exact I.
Qed.

Lemma private_pure {A} (m : M A) : (forall s, snd (m s) = s) -> private h0 m.
Proof. intros H s Hs. rewrite H. split; [apply Hs | intros _; exact Hs]. Qed.

Lemma private_ret {A} (a : A) : private h0 (ret a).
Proof. apply private_pure. reflexivity. Qed.

Lemma private_diverge {A} : private h0 (@diverge A).
Proof. apply private_pure. reflexivity. Qed.

Lemma private_get_state : private h0 get_state.
Proof. apply private_pure. reflexivity. Qed.

Lemma private_load (r : nat) : private h0 (load r).
Proof. apply private_pure. intros s. unfold load. destruct (heap s !! r); reflexivity. Qed.

Lemma private_lift {A} (r : result A) : private h0 (lift r).
Proof. apply private_pure. reflexivity. Qed.

Lemma private_randint (lo hi : Z) : private h0 (randint lo hi).
Proof.
  intros s Hs. unfold randint. destruct (draws s); simpl.
  - split; [apply Hs | contradiction].
  - split; [apply Hs | intros _; exact Hs].
Qed.

Lemma private_check_move_allowed (column : Z) : private h0 (check_move_allowed column).
Proof.
  unfold check_move_allowed. apply private_bind; [apply private_get_state|]. intros s.
  apply private_bind; [apply private_load|]. intros b. apply private_lift.
Qed.

Lemma private_check_win (player : Z) : private h0 (check_win player).
Proof.
  unfold check_win. apply private_bind; [apply private_get_state|]. intros s.
  apply private_bind; [apply private_load|]. intros b. apply private_ret.
Qed.

(** [place_coin] writes into the running object's own array only. *)
Lemma private_place_coin (column player : Z) : private h0 (place_coin column player).
Proof.
  intros s [Hk Hc]. unfold place_coin, bind, get_state, load, lift, store, ret.
  destruct (heap s !! container (this s)) as [b|]; simpl;
    [|split; [assumption | contradiction]].
  destruct (Board.place_coin b column player) as [[b' [res|]]|e|]; simpl;
    try (split; [assumption | first [contradiction | intros _; split; assumption]]).
  assert (Hkeep : keeps h0 (set_heap (<[container (this s) := b']> (heap s)) s)).
  { intros r Hr. simpl. rewrite list_lookup_insert_ne by lia. apply Hk. assumption. }
  split; [assumption | intros _; split; assumption].
Qed.

Lemma copying_set_current_board (curr : nat) : copying h0 (set_current_board curr).
Proof.
  intros s Hk. destruct (heap s !! curr) as [b|] eqn:E.
  - rewrite (set_current_board_run s curr b E). simpl.
    pose proof (keeps_length s Hk) as Hlen.
    assert (Hkeep : keeps h0 (mkState (heap s ++ [b]) (draws s)
                                (set_container (length (heap s)) (this s)))).
    { intros r Hr. simpl. rewrite lookup_app_l by lia. apply Hk. assumption. }
    split; [assumption | intros _; split; assumption].
  - rewrite (set_current_board_dangling s curr E). simpl.
    split; [assumption | contradiction].
Qed.

Lemma private_for_return {X A} (xs : list X) (body : X -> M (option A)) :
  (forall x, private h0 (body x)) -> private h0 (for_return xs body).
Proof.
  intros Hbody. induction xs as [|x xs IH]; simpl; [apply private_ret|].
  apply private_bind; [apply Hbody|]. intros [a|]; [apply private_ret | apply IH].
Qed.

Lemma private_random_loop (fuel : nat) : private h0 (random_loop fuel).
Proof.
  induction fuel as [|fuel IH]; simpl; [apply private_diverge|].
  apply private_bind; [apply private_randint|]. intros col.
  apply private_bind; [apply private_place_coin|]. intros r.
  destruct (truthy r); [apply private_ret | apply IH].
Qed.

Lemma copying_random_move (curr : nat) : copying h0 (random_move curr).
Proof.
  unfold random_move. apply copying_bind; [apply copying_set_current_board|]. intros _.
  apply private_bind; [apply private_get_state|]. intros s. apply private_random_loop.
Qed.

Lemma copying_place_4th_coin (curr : nat) : copying h0 (place_4th_coin curr).
Proof.
  unfold place_4th_coin. apply copying_bind; [apply copying_set_current_board|]. intros _.
  apply private_for_return. intros player. apply private_for_return. intros col.
  apply private_bind; [apply private_place_coin|]. intros r.
  destruct (truthy r); [|apply private_ret].
  apply private_bind; [apply private_check_win|]. intros w.
  destruct (is_val w player); [apply private_ret|].
  apply private_bind; [apply copying_private, copying_set_current_board|]. intros _.
  apply private_ret.
Qed.

Lemma copying_check_mistake (column : Z) (curr : nat) :
  copying h0 (check_mistake column curr).
Proof.
  unfold check_mistake. apply copying_bind; [apply copying_set_current_board|]. intros _.
  apply private_bind; [apply private_place_coin|]. intros r.
  destruct (truthy r); [|apply private_ret].
  apply private_bind; [apply private_get_state|]. intros s.
  apply private_for_return. intros col.
  apply private_bind; [apply private_place_coin|]. intros r1.
  destruct (truthy r1); [|apply private_ret].
  apply private_bind; [apply private_check_win|]. intros w.
  destruct (is_val w 1); [apply private_ret|].
  apply private_bind; [apply copying_private, copying_set_current_board|]. intros _.
  apply private_ret.
Qed.

Lemma private_count_available (cols : list Z) (curr : nat) (n : Z) :
  private h0 (count_available cols curr n).
Proof.
  revert n. induction cols as [|col cols IH]; intros n; simpl; [apply private_ret|].
  apply private_bind; [apply private_check_move_allowed|]. intros ok.
  destruct ok; [|apply IH].
  apply private_bind; [apply copying_private, copying_check_mistake|]. intros m.
  destruct (negb (truthy m)); apply IH.
Qed.

Lemma copying_safe_random_loop (fuel : nat) (curr : nat) :
  copying h0 (safe_random_loop fuel curr).
Proof.
  induction fuel as [|fuel IH]; simpl.
  - intros s Hs. simpl. split; [assumption | contradiction].
  - apply copying_bind; [apply copying_random_move|]. intros rand_move.
    apply private_bind; [apply copying_private, copying_check_mistake|]. intros m.
    destruct (negb (truthy m)); [apply private_ret | apply copying_private, IH].
Qed.

Lemma copying_keeps {A} (m : M A) (s : state) :
  copying h0 m -> keeps h0 s -> keeps h0 (snd (m s)).
Proof. intros Hm Hk. destruct (Hm s Hk) as [H _]. exact H. Qed.

Lemma private_then_random_move (curr : nat) (res : option Z) :
  private h0 (match res with
              | Some col => ret (Some col)
              | None => do col <- random_move curr ;; ret (Some col)
              end).
Proof.
  destruct res as [col|]; [apply private_ret|].
  apply private_bind; [apply copying_private, copying_random_move|].
  intros col. apply private_ret.
Qed.

(** Whatever the difficulty and the draws, [bot_move] leaves [h0] alone. *)
Lemma bot_move_keeps (curr : nat) (s : state) :
  keeps h0 s -> keeps h0 (snd (bot_move curr s)).
Proof.
  intros Hk. unfold bot_move. unfold bind at 1, get_state at 1.
  destruct (is_difficulty _ "easy").
  { apply copying_keeps; [|exact Hk].
    apply copying_bind; [apply copying_random_move|]. intros col. apply private_ret. }
  destruct (is_difficulty _ "moderate").
  { apply copying_keeps; [|exact Hk].
    apply copying_bind; [apply copying_place_4th_coin|].
    apply private_then_random_move. }
  destruct (is_difficulty _ "hard"); [|exact Hk].
  apply copying_keeps; [|exact Hk].
  apply copying_bind; [apply copying_place_4th_coin|].
  intros [col|]; [apply private_ret|].
  apply private_bind; [apply private_count_available|]. intros n.
  destruct (0 <? n).
  - apply private_bind; [apply private_get_state|]. intros s1.
    apply private_bind; [apply copying_private, copying_safe_random_loop|].
    intros col. apply private_ret.
  - apply private_bind; [apply copying_private, copying_random_move|].
    intros col. apply private_ret.
Qed.

End Frame.

(** C3: for every heap, every board reference and every difficulty
    (['easy'], ['moderate'], ['hard'] or anything else) and whatever the
    random source yields, the array passed to [bot_move] holds the same
    cells after the call as before: the bot writes into its own copies only. *)
Theorem bot_move_leaves_board (s : state) (curr : nat) (b : board) :
  heap s !! curr = Some b ->
  heap (snd (bot_move curr s)) !! curr = Some b.
Proof.
  intros H. rewrite <- H. apply (bot_move_keeps (heap s)).
  - intros r _. reflexivity.
  - eapply lookup_lt_Some. eassumption.
Qed.

Lemma bot_move_leaves_board_witness :
  heap (snd (bot_move 0 (start_state two_in_a_row (Some "hard"%string) [3; 4; 5])))
    !! 0%nat = Some two_in_a_row.
Proof. apply bot_move_leaves_board. reflexivity. Defined.

(** ** Claims about the board *)

(** C4: on a board whose column obeys gravity, placing into a playable
    column that holds exactly [k] coins writes the coin into row [5 - k];
    that cell was empty, it changes, and no other cell does. *)
Theorem place_coin_lands (b : board) (column player : Z) (k : nat) :
  wf_board b -> 0 <= column < 7 -> player <> 0 ->
  Board.check_move_allowed b column = Ok true ->
  stacked b (Z.to_nat column) ->
  occupied b (Z.to_nat column) = k ->
  exists b',
    Board.place_coin b column player = Ok (b', Some true) /\
    cell b (5 - k) (Z.to_nat column) = 0 /\
    cell b' (5 - k) (Z.to_nat column) = player /\
    cell b' (5 - k) (Z.to_nat column) <> cell b (5 - k) (Z.to_nat column) /\
    forall r c, (r, c) <> ((5 - k)%nat, Z.to_nat column) -> cell b' r c = cell b r c.
Proof.
  intros Hwf Hc Hp Hplay Hst Hk.
  rewrite check_move_allowed_inside in Hplay by assumption.
  injection Hplay as Htop. pose proof Htop as Htop'. apply Z.eqb_eq in Htop'.
  destruct (landing_row_lowest_empty b (Z.to_nat column) Htop') as (Hlt & Hempty & _).
  rewrite (stacked_landing_row b _ Htop' Hst), Hk in Hlt, Hempty.
  exists (setcell b (5 - k) (Z.to_nat column) player).
  rewrite place_coin_inside, Htop, (stacked_landing_row b _ Htop' Hst), Hk by assumption.
  assert (Hnew : cell (setcell b (5 - k) (Z.to_nat column) player) (5 - k) (Z.to_nat column)
                 = player).
  { apply cell_setcell_same; [assumption | assumption | unfold num_columns; lia]. }
  repeat split; try assumption.
  - rewrite Hnew, Hempty. assumption.
  - intros r c Hne. apply cell_setcell_other. assumption.
Qed.

Lemma place_coin_lands_witness :
  exists b',
    Board.place_coin win_or_block 0 2 = Ok (b', Some true) /\
    cell win_or_block (5 - 3) (Z.to_nat 0) = 0 /\
    cell b' (5 - 3) (Z.to_nat 0) = 2 /\
    cell b' (5 - 3) (Z.to_nat 0) <> cell win_or_block (5 - 3) (Z.to_nat 0) /\
    forall r c, (r, c) <> ((5 - 3)%nat, Z.to_nat 0) -> cell b' r c = cell win_or_block r c.
Proof.
  apply (place_coin_lands win_or_block 0 2 3).
  - split; [reflexivity | repeat constructor].
  - lia.
  - lia.
  - reflexivity.
  - intros r Hr. unfold num_rows in Hr.
    do 5 (destruct r as [|r]; [vm_compute; intros; congruence|]). lia.
  - reflexivity.
Defined.

(** C5: when the top cell of the chosen column is occupied, [place_coin]
    answers [None], the failure value, and changes no cell; the click that
    asked for it ends [event_handler] with turn, outcome and every other
    part of the state as before. *)
Theorem place_coin_full_column (s : state) (b : board) (events : list event)
    (posx column player v : Z) :
  heap s !! container (this s) = Some b ->
  getitem b 0 column = Ok v -> v <> 0 ->
  posx / SQUARESIZE = column ->
  Board.place_coin b column player = Ok (b, None) /\
  place_coin column player s = (Ok None, s) /\
  event_handler (MOUSEBUTTONDOWN posx :: events) s = (Ok tt, s).
Proof.
  intros Hb Hget Hv Hclick.
  assert (Hrefuse : forall p, place_coin column p s = (Ok None, s)).
  { intros p. rewrite (place_coin_run s b column p Hb).
    rewrite (place_coin_refused b column p v Hget Hv). reflexivity. }
  split; [eapply place_coin_refused; eassumption|]. split; [apply Hrefuse|].
  simpl. unfold mouse_button_down. unfold bind at 1. unfold bind at 1.
  unfold get_state at 1. unfold bind at 1. rewrite Hclick, Hrefuse. reflexivity.
Qed.

Lemma place_coin_full_column_witness :
  Board.place_coin full_column 0 1 = Ok (full_column, None) /\
  place_coin 0 1 (mkState [full_column] [] (mkSelf 0 0 false 2 None))
    = (Ok None, mkState [full_column] [] (mkSelf 0 0 false 2 None)) /\
  event_handler [MOUSEBUTTONDOWN 50; MOUSEBUTTONDOWN 150]
      (mkState [full_column] [] (mkSelf 0 0 false 2 None))
    = (Ok tt, mkState [full_column] [] (mkSelf 0 0 false 2 None)).
Proof.
  apply (place_coin_full_column _ full_column _ 50 0 1 1).
  - reflexivity.
  - reflexivity.
  - lia.
  - reflexivity.
Defined.

(** C6, as the claim states it, fails: on the empty board column [-1] is
    answered [True] although it lies outside [0, 7). *)
Lemma check_move_allowed_accepts_minus_one :
  ~ (forall (b : board) (column : Z), wf_board b ->
       (Board.check_move_allowed b column = Ok true <->
          0 <= column < 7 /\ cell b 0 (Z.to_nat column) = 0) /\
       (~ 0 <= column < 7 -> exists e, Board.check_move_allowed b column = Raise e)).
Proof.
  intros H. destruct (H zeros (-1) wf_zeros) as [_ Hreject].
  destruct Hreject as [e He]; [lia|]. vm_compute in He. discriminate.
Qed.

(** C6, amended: for [0 <= column < 7] the answer is whether the top cell of
    the column is empty; for [-7 <= column < 0] the call is not rejected and
    answers for column [7 + column]; every other column raises [IndexError]. *)
Theorem check_move_allowed_by_range (b : board) (column : Z) :
  wf_board b ->
  (0 <= column < 7 ->
     Board.check_move_allowed b column = Ok (cell b 0 (Z.to_nat column) =? 0)) /\
  (-7 <= column < 0 ->
     Board.check_move_allowed b column = Ok (cell b 0 (Z.to_nat (7 + column)) =? 0)) /\
  (column < -7 \/ 7 <= column ->
     Board.check_move_allowed b column = Raise IndexError).
Proof.
  intros Hwf. repeat split.
  - intros Hc. apply check_move_allowed_inside; assumption.
  - intros Hc. rewrite check_move_allowed_wraps by assumption.
    apply check_move_allowed_inside; [assumption | lia].
  - intros Hc. unfold Board.check_move_allowed.
    rewrite getitem_outside; [reflexivity|].
    apply norm_index_outside. unfold num_columns. lia.
Qed.

Lemma check_move_allowed_by_range_witness :
  (0 <= -1 < 7 ->
     Board.check_move_allowed zeros (-1) = Ok (cell zeros 0 (Z.to_nat (-1)) =? 0)) /\
  (-7 <= -1 < 0 ->
     Board.check_move_allowed zeros (-1) = Ok (cell zeros 0 (Z.to_nat (7 + -1)) =? 0)) /\
  (-1 < -7 \/ 7 <= -1 ->
     Board.check_move_allowed zeros (-1) = Raise IndexError).
Proof. apply (check_move_allowed_by_range zeros (-1)). apply wf_zeros. Defined.



(** ** Claims about win and draw detection *)

(** C7: whenever player [p] (1 or 2) owns four consecutive cells of the
    grid, in a row, in a column or on either diagonal, [check_win(p)]
    returns [p]. *)
Theorem check_win_finds_every_run (b : board) (p : Z) :
  p = 1 \/ p = 2 -> has_four b p -> Board.check_win b p = Some p.
Proof.
  intros _ H. apply has_four_wins. assumption.
Qed.

Lemma check_win_finds_every_run_witness : Board.check_win rising_run 1 = Some 1.
Proof.
  apply check_win_finds_every_run; [left; reflexivity|].
  exists UpRight, 2%nat, 0%nat. apply Forall_four.
  unfold owned, num_rows, num_columns. simpl. repeat split; lia.
Defined.

(** C8: for a player [p] (1 or 2), [check_win(p)] returns 3, the draw,
    exactly when every cell is occupied and [p] has no four in a row; on a
    full board where [p] has four in a row the answer is [p], because the
    runs are looked for first. *)
Theorem check_win_draw (b : board) (p : Z) :
  wf_board b -> p = 1 \/ p = 2 ->
  (Board.check_win b p = Some 3 <-> full b /\ ~ has_four b p) /\
  (full b -> has_four b p -> Board.check_win b p = Some p).
Proof.
  intros Hwf Hp. split.
  - rewrite check_win_cases, has_four_scan, <- (np_all_full b Hwf).
    destruct (_ || _ || _ || _).
    + split; [intros [= ->]; lia | intros [_ Hno]; exfalso; apply Hno; reflexivity].
    + destruct (Board.np_all b).
      * split; [intros _; split; [reflexivity | discriminate] | reflexivity].
      * split; [discriminate | intros [Hfull _]; discriminate].
  - intros _ H. apply has_four_wins. assumption.
Qed.

Example drawn_board_is_a_draw :
  Board.check_win drawn_board 1 = Some 3 /\ Board.check_win drawn_board 2 = Some 3.
Proof. split; reflexivity. Qed.

Lemma check_win_draw_witness :
  (Board.check_win drawn_board 1 = Some 3 <-> full drawn_board /\ ~ has_four drawn_board 1) /\
  (full drawn_board -> has_four drawn_board 1 -> Board.check_win drawn_board 1 = Some 1).
Proof.
  apply check_win_draw.
  - split; [reflexivity | repeat constructor].
  - left. reflexivity.
Defined.

(** ** Claims about the bot and the session *)

(** C2, at a board the game reaches after the moves 1, 6, 2: the bot's coin
    in column 6 lets no single reply of player 1 win, yet [check_mistake]
    answers [True].  The coin tried in column 0 stays in the array that
    [updated_board] names, and the reply in column 3 is then judged on a
    board holding two coins of player 1 more than the position had.  The
    hard bot therefore throws away the draw 6 and plays the next one. *)
Theorem check_mistake_keeps_first_reply :
  fst (check_mistake 6 0 (start_state two_in_a_row (Some "hard"%string) []))
    = Ok (Some true) /\
  unsafe_move two_in_a_row 6 = false /\
  fst (bot_move 0 (start_state two_in_a_row (Some "hard"%string) [6; 3])) = Ok (Some 3).
Proof. repeat split; vm_compute; reflexivity. Qed.

(** C9, as the claim states it, fails: the constructor called with one
    player and no difficulty returns a session. *)
Lemma Connect4_init_without_difficulty :
  fst (Connect4_init 1 None no_object) = Ok (mkSelf 0 0 false 1 None) /\
  ~ (exists e, fst (Connect4_init 1 None no_object) = Raise e).
Proof. split; [reflexivity | intros [e He]; discriminate]. Qed.

(** C9, amended: [Connect4.__init__] checks nothing and always builds the
    session, on a fresh empty board; one player without a difficulty is
    turned away by the [__main__] block alone, which leaves before any
    session exists. *)
Theorem difficulty_checked_by_main_only
    (s : state) (n : Z) (d : option string) (batches : list (list event)) :
  Connect4_init n d s
    = (Ok (mkSelf (length (heap s)) 0 false n d), set_heap (heap s ++ [zeros]) s) /\
  main (mkArguments 1 None) batches s = (Raise SystemExit, s).
Proof. split; reflexivity. Qed.

(** * Further properties of the engine *)

(** ** Detection is exact, and placements never undo a run *)

Section Runs.

Lemma setcell_keeps_run (b : board) (L j : nat) (p q : Z) :
  cell b L j = 0 -> q <> 0 -> has_four b q -> has_four (setcell b L j p) q.
Proof.
  intros Hempty Hq (o & r & c & Hall). exists o, r, c.
  eapply Forall_impl; [exact Hall|]. intros [i k] (Hi & Hk & Hcell).
  simpl in Hi, Hk, Hcell. repeat split; try assumption. simpl.
  rewrite cell_setcell_other; [assumption|]. intros [= -> ->]. congruence.
Qed.

Lemma place_coin_keeps_run (b b' : board) (column player q : Z) (res : option bool) :
  wf_board b -> 0 <= column < 7 -> q <> 0 ->
  Board.place_coin b column player = Ok (b', res) ->
  has_four b q -> has_four b' q.
Proof.
  intros Hwf Hc Hq Hplace Hrun. rewrite place_coin_inside in Hplace by assumption.
  destruct (Z.eqb_spec (cell b 0 (Z.to_nat column)) 0) as [Htop|_];
    [|injection Hplace as <- _; assumption].
  injection Hplace as <- _.
  destruct (landing_row_lowest_empty b (Z.to_nat column) Htop) as (_ & Hempty & _).
  apply setcell_keeps_run; assumption.
Qed.

Lemma check_win_sound (b : board) (p : Z) :
  p <> 3 -> Board.check_win b p = Some p -> has_four b p.
Proof.
  intros Hp. rewrite check_win_cases, has_four_scan.
  destruct (_ || _ || _ || _); [reflexivity|].
  destruct (Board.np_all b); [intros [= E]; congruence | discriminate].
Qed.

End Runs.

(** X1: for a player value other than 3, [check_win] returns the player
    exactly when that player owns four consecutive cells in a row, a column
    or a diagonal: it reports no win that is not on the board. *)
Theorem check_win_exact (b : board) (p : Z) :
  p <> 3 -> (Board.check_win b p = Some p <-> has_four b p).
Proof.
  intros Hp. split; [apply check_win_sound; assumption | apply has_four_wins].
Qed.

Lemma check_win_exact_witness :
  Board.check_win rising_run 1 = Some 1 <-> has_four rising_run 1.
Proof. apply check_win_exact. lia. Defined.

(** X2: a win is never undone: once [check_win] reports player 1 or 2 as
    the winner, it reports the same after any further [place_coin] of any
    coin into any column 0..6. *)
Theorem win_survives_placement (b b' : board) (p column player : Z) (res : option bool) :
  wf_board b -> 0 <= column < 7 -> p = 1 \/ p = 2 ->
  Board.check_win b p = Some p ->
  Board.place_coin b column player = Ok (b', res) ->
  Board.check_win b' p = Some p.
Proof.
  intros Hwf Hc Hp Hwin Hplace.
  assert (Hp3 : p <> 3) by lia. assert (Hp0 : p <> 0) by lia.
  apply has_four_wins. apply (check_win_sound b p Hp3) in Hwin.
  eapply place_coin_keeps_run; eassumption.
Qed.

Lemma win_survives_placement_witness :
  Board.check_win (setcell rising_run 4 0 2) 1 = Some 1.
Proof.
  apply (win_survives_placement rising_run _ 1 0 2 (Some true)).
  - split; [reflexivity | repeat constructor].
  - lia.
  - left. reflexivity.
  - reflexivity.
  - reflexivity.
Defined.

(** ** How many coins a column takes *)

Section Capacity.

Lemma count_one_more (g g' : nat -> bool) (L : nat) :
  g L = false -> g' L = true -> (forall r, r <> L -> g' r = g r) ->
  forall n a,
    length (List.filter g' (seq a n)) =
    (length (List.filter g (seq a n))
     + (if (a <=? L)%nat && (L <? a + n)%nat then 1 else 0))%nat.
Proof.
  intros HL HL' Hother. induction n as [|n IH]; intros a; simpl.
  - destruct (Nat.leb_spec a L), (Nat.ltb_spec L (a + 0)); simpl; lia.
  - specialize (IH (S a)).
    destruct (Nat.eq_dec a L) as [->|Hne].
    + rewrite HL, HL'. simpl. rewrite IH.
      destruct (Nat.leb_spec (S L) L), (Nat.ltb_spec L (S L + n)),
        (Nat.leb_spec L L), (Nat.ltb_spec L (L + S n)); simpl; lia.
    + rewrite (Hother a Hne). destruct (g a); simpl; rewrite IH;
      destruct (Nat.leb_spec (S a) L), (Nat.ltb_spec L (S a + n)),
        (Nat.leb_spec a L), (Nat.ltb_spec L (a + S n)); simpl; lia.
Qed.

Lemma occupied_setcell_same (b : board) (L j : nat) (p : Z) :
  wf_board b -> (L < num_rows)%nat -> (j < num_columns)%nat ->
  cell b L j = 0 -> p <> 0 ->
  occupied (setcell b L j p) j = S (occupied b j).
Proof.
  intros Hwf HL Hj Hempty Hp. unfold occupied.
  rewrite (count_one_more (fun r => negb (cell b r j =? 0))
             (fun r => negb (cell (setcell b L j p) r j =? 0)) L).
  - unfold num_rows in *. destruct (Nat.leb_spec 0 L), (Nat.ltb_spec L (0 + 6)); simpl; lia.
  - rewrite Hempty. reflexivity.
  - rewrite cell_setcell_same by assumption.
    destruct (Z.eqb_spec p 0); [contradiction | reflexivity].
  - intros r Hr. rewrite cell_setcell_other; [reflexivity | congruence].
Qed.

Lemma occupied_setcell_other (b : board) (L j j' : nat) (p : Z) :
  j' <> j -> occupied (setcell b L j p) j' = occupied b j'.
Proof.
  intros Hne. unfold occupied. f_equal. apply List.filter_ext. intros r.
  rewrite cell_setcell_other; [reflexivity | congruence].
Qed.

(** Under gravity the top cell is empty exactly when fewer than six cells
    of the column are occupied. *)
Lemma stacked_top_empty (b : board) (j : nat) :
  stacked b j -> (cell b 0 j = 0 <-> (occupied b j < 6)%nat).
Proof.
  intros Hst.
  pose proof (Hst 0%nat) as S0. pose proof (Hst 1%nat) as S1.
  pose proof (Hst 2%nat) as S2. pose proof (Hst 3%nat) as S3.
  pose proof (Hst 4%nat) as S4. unfold num_rows in *. simpl in S0, S1, S2, S3, S4.
  unfold occupied, num_rows. simpl.
  destruct (Z.eqb_spec (cell b 0 j) 0) as [E0|E0],
           (Z.eqb_spec (cell b 1 j) 0) as [E1|E1],
           (Z.eqb_spec (cell b 2 j) 0) as [E2|E2],
           (Z.eqb_spec (cell b 3 j) 0) as [E3|E3],
           (Z.eqb_spec (cell b 4 j) 0) as [E4|E4],
           (Z.eqb_spec (cell b 5 j) 0) as [E5|E5]; simpl;
    try (split; [intros _; lia | intros _; assumption]);
    try (split; [intros; contradiction | intros; lia]);
    exfalso;
    first [ apply S4; [lia | assumption | assumption]
          | apply S3; [lia | assumption | assumption]
          | apply S2; [lia | assumption | assumption]
          | apply S1; [lia | assumption | assumption]
          | apply S0; [lia | assumption | assumption] ].
Qed.

Lemma played_cells (b : board) :
  played b -> forall r c, cell b r c = 0 \/ cell b r c = 1 \/ cell b r c = 2.
Proof.
  induction 1 as [|b b' column player res Hb IH Hc Hp Hplace]; intros r c.
  - left. apply cell_zeros.
  - destruct (played_invariant b Hb) as [Hwf _].
    rewrite place_coin_inside in Hplace by assumption.
    destruct (cell b 0 (Z.to_nat column) =? 0); injection Hplace as <- _; [|apply IH].
    destruct (decide ((r, c) = (Board.landing_row b (Z.to_nat column), Z.to_nat column)))
      as [E|Hne].
    + injection E as -> ->. destruct (wf_lookup b (Board.landing_row b (Z.to_nat column))
                                        (Z.to_nat column) Hwf) as (row & Hrow & Hv).
      * destruct (Z.eqb_spec (cell b 0 (Z.to_nat column)) 0) as [Htop|Htop].
        -- apply landing_row_lowest_empty. assumption.
        -- unfold Board.landing_row, num_rows. simpl.
           repeat (destruct (_ =? 0); [lia|]). lia.
      * unfold num_columns. lia.
      * unfold cell, setcell. rewrite !nth_lookup, list_lookup_alter_eq, Hrow. simpl.
        rewrite list_lookup_insert_eq by (eapply lookup_lt_Some; eassumption). simpl. lia.
    + rewrite cell_setcell_other by assumption. apply IH.
Qed.

End Capacity.

(** X3: in a column that obeys gravity, [place_coin] of a coin (a value
    other than 0) into a column 0..6 succeeds exactly when the column holds
    fewer than six coins; the column then holds one coin more and every other
    column as many as before.  With six coins the call is refused and the
    board stays as it is. *)
Theorem column_takes_six_coins (b : board) (column player : Z) :
  wf_board b -> 0 <= column < 7 -> player <> 0 ->
  stacked b (Z.to_nat column) ->
  ((occupied b (Z.to_nat column) < 6)%nat ->
     exists b',
       Board.place_coin b column player = Ok (b', Some true) /\
       occupied b' (Z.to_nat column) = S (occupied b (Z.to_nat column)) /\
       forall j, j <> Z.to_nat column -> occupied b' j = occupied b j) /\
  (~ (occupied b (Z.to_nat column) < 6)%nat ->
     Board.place_coin b column player = Ok (b, None)).
Proof.
  intros Hwf Hc Hp Hst. rewrite place_coin_inside by assumption.
  pose proof (stacked_top_empty b _ Hst) as Htop. split.
  - intros Hroom. apply Htop in Hroom.
    destruct (landing_row_lowest_empty b _ Hroom) as (Hlt & Hempty & _).
    rewrite Hroom. simpl. eexists. split; [reflexivity|]. split.
    + apply occupied_setcell_same; try assumption. unfold num_columns. lia.
    + intros j Hj. apply occupied_setcell_other. assumption.
  - intros Hfull. destruct (Z.eqb_spec (cell b 0 (Z.to_nat column)) 0) as [E|_];
      [|reflexivity].
    exfalso. apply Hfull, Htop. assumption.
Qed.

Lemma column_takes_six_coins_witness :
  ((occupied full_column (Z.to_nat 0) < 6)%nat ->
     exists b',
       Board.place_coin full_column 0 1 = Ok (b', Some true) /\
       occupied b' (Z.to_nat 0) = S (occupied full_column (Z.to_nat 0)) /\
       forall j, j <> Z.to_nat 0 -> occupied b' j = occupied full_column j) /\
  (~ (occupied full_column (Z.to_nat 0) < 6)%nat ->
     Board.place_coin full_column 0 1 = Ok (full_column, None)).
Proof.
  apply (column_takes_six_coins full_column 0 1).
  - split; [reflexivity | repeat constructor].
  - lia.
  - lia.
  - intros r Hr. unfold num_rows in Hr.
    do 5 (destruct r as [|r]; [vm_compute; intros; congruence|]). lia.
Defined.

(** X4: every board a game builds (the empty board, then coins of the
    players 1 and 2 placed by [place_coin] into columns 0..6) is a 6 x 7
    grid, holds only the values 0, 1 and 2, and obeys gravity in every
    column: no cell is empty below a coin. *)
Theorem played_boards_are_sound (b : board) :
  played b ->
  wf_board b /\
  (forall r c, cell b r c = 0 \/ cell b r c = 1 \/ cell b r c = 2) /\
  (forall j, stacked b j).
Proof.
  intros H. destruct (played_invariant b H) as [Hwf Hst].
  repeat split; try apply Hwf; [apply played_cells; assumption | apply Hst].
Qed.

Lemma played_boards_are_sound_witness :
  wf_board (setcell zeros 5 3 1) /\
  (forall r c, cell (setcell zeros 5 3 1) r c = 0 \/
               cell (setcell zeros 5 3 1) r c = 1 \/
               cell (setcell zeros 5 3 1) r c = 2) /\
  (forall j, stacked (setcell zeros 5 3 1) j).
Proof.
  apply played_boards_are_sound.
  apply (played_place zeros _ 3 1 (Some true) played_zeros).
  - lia.
  - left. reflexivity.
  - reflexivity.
Defined.

(** ** The random move *)

Section RandomMove.

Lemma bind_inv {A B} (m : M A) (k : A -> M B) (s s' : state) (r : B) :
  bind m k s = (Ok r, s') ->
  exists a s1, m s = (Ok a, s1) /\ k a s1 = (Ok r, s').
Proof.
  unfold bind. destruct (m s) as [[a|e|] s1]; intros H; try discriminate. eauto.
Qed.

Lemma randint_range (d : Z) : 0 <= 0 + d mod (7 - 0) < 7.
Proof.
  change (7 - 0) with 7. pose proof (Z.mod_pos_bound d 7 ltac:(lia)). lia.
Qed.

Lemma accepts_inside (b : board) (col : Z) :
  wf_board b -> 0 <= col < 7 -> accepts b col = (cell b 0 (Z.to_nat col) =? 0).
Proof.
  intros Hwf Hc. unfold accepts. rewrite check_move_allowed_inside by assumption.
  destruct (_ =? 0); reflexivity.
Qed.

Lemma first_playable_accepts (b : board) (ds : list Z) (c : Z) :
  first_playable b ds = Some c -> 0 <= c < 7 /\ accepts b c = true.
Proof.
  unfold first_playable. induction ds as [|d ds IH]; simpl; [discriminate|].
  destruct (accepts b (0 + d mod (7 - 0))) eqn:E; [|exact IH].
  intros [= <-]. split; [apply randint_range | exact E].
Qed.

Lemma first_playable_none (b : board) (ds : list Z) :
  (forall c, 0 <= c < 7 -> accepts b c = false) -> first_playable b ds = None.
Proof.
  intros Hnone. unfold first_playable. induction ds as [|d ds IH]; simpl; [reflexivity|].
  rewrite (Hnone _ (randint_range d)). exact IH.
Qed.

(** The loop of [random_move] on a working copy equal to [b]. *)
Lemma random_loop_run (b : board) (ds : list Z) :
  wf_board b ->
  forall (fuel : nat) (s : state),
    draws s = ds -> (length ds < fuel)%nat ->
    heap s !! container (this s) = Some b ->
    match first_playable b ds with
    | Some c =>
        fst (random_loop fuel s) = Ok c /\
        exists b', Board.place_coin b c 2 = Ok (b', Some true) /\
          heap (snd (random_loop fuel s))
            !! container (this (snd (random_loop fuel s))) = Some b'
    | None => fst (random_loop fuel s) = Diverge
    end.
Proof.
  intros Hwf. induction ds as [|d ds IH]; intros fuel s Hds Hfuel Hb.
  - destruct fuel as [|fuel]; [simpl in Hfuel; lia|]. simpl.
    unfold bind, randint. rewrite Hds. reflexivity.
  - destruct fuel as [|fuel]; [simpl in Hfuel; lia|].
    assert (Hdraw : randint 0 7 s = (Ok (0 + d mod (7 - 0)), set_draws ds s)).
    { unfold randint. rewrite Hds. reflexivity. }
    cbn [random_loop]. rewrite (bind_ok _ _ _ _ _ Hdraw).
    pose proof (randint_range d) as Hcol. set (col := 0 + d mod (7 - 0)) in *.
    assert (Hplace := place_coin_run (set_draws ds s) b col 2 Hb).
    rewrite place_coin_inside in Hplace by assumption.
    unfold first_playable. cbn [first_some]. fold col.
    rewrite accepts_inside by assumption.
    destruct (cell b 0 (Z.to_nat col) =? 0) eqn:Etop.
    + rewrite (bind_ok _ _ _ _ _ Hplace). cbn [truthy ret fst snd]. split; [reflexivity|].
      eexists. split; [rewrite place_coin_inside, Etop by assumption; reflexivity|].
      simpl. apply list_lookup_insert_eq. eapply lookup_lt_Some. eassumption.
    + rewrite (bind_ok _ _ _ _ _ Hplace). cbn [truthy].
      apply (IH fuel (set_draws ds s)); [reflexivity | simpl in Hfuel; lia | exact Hb].
Qed.

Lemma random_move_run (s : state) (curr : nat) (b : board) :
  heap s !! curr = Some b -> wf_board b ->
  match first_playable b (draws s) with
  | Some c =>
      fst (random_move curr s) = Ok c /\
      exists b', Board.place_coin b c 2 = Ok (b', Some true) /\
        heap (snd (random_move curr s))
          !! container (this (snd (random_move curr s))) = Some b'
  | None => fst (random_move curr s) = Diverge
  end.
Proof.
  intros Hcurr Hwf. unfold random_move.
  rewrite (bind_ok _ _ _ _ _ (set_current_board_run s curr b Hcurr)).
  unfold bind at 1 3 4, get_state. cbn [draws].
  apply (random_loop_run b (draws s) Hwf); [reflexivity | lia |].
  simpl. rewrite list_lookup_middle; reflexivity.
Qed.

End RandomMove.

(** X5: on a 6 x 7 board [random_move] returns the column of the first
    draw whose column is playable, and its working copy then holds the
    caller's position with the bot's coin dropped into that column;
    unplayable draws are skipped. *)
Theorem random_move_first_playable (s : state) (curr : nat) (b : board) (c : Z) :
  heap s !! curr = Some b -> wf_board b ->
  first_playable b (draws s) = Some c ->
  fst (random_move curr s) = Ok c /\
  exists b', Board.place_coin b c 2 = Ok (b', Some true) /\
    heap (snd (random_move curr s))
      !! container (this (snd (random_move curr s))) = Some b'.
Proof.
  intros Hcurr Hwf Hfirst. pose proof (random_move_run s curr b Hcurr Hwf) as H.
  rewrite Hfirst in H. exact H.
Qed.

Lemma random_move_first_playable_witness :
  fst (random_move 0 (start_state full_column None [7; 14; 9])) = Ok 2 /\
  exists b', Board.place_coin full_column 2 2 = Ok (b', Some true) /\
    heap (snd (random_move 0 (start_state full_column None [7; 14; 9])))
      !! container (this (snd (random_move 0 (start_state full_column None [7; 14; 9]))))
    = Some b'.
Proof.
  apply (random_move_first_playable _ 0%nat full_column 2).
  - reflexivity.
  - split; [reflexivity | repeat constructor].
  - reflexivity.
Defined.

(** X6: when no column of the board is playable, [random_move] does not
    return, whatever the random source yields: its loop has no exit on a
    full board. *)
Theorem random_move_full_board (s : state) (curr : nat) (b : board) :
  heap s !! curr = Some b -> wf_board b ->
  (forall c, 0 <= c < 7 -> accepts b c = false) ->
  fst (random_move curr s) = Diverge.
Proof.
  intros Hcurr Hwf Hnone. pose proof (random_move_run s curr b Hcurr Hwf) as H.
  rewrite (first_playable_none b (draws s) Hnone) in H. exact H.
Qed.

Lemma random_move_full_board_witness :
  fst (random_move 0 (start_state drawn_board None [3; 0; 6; 5])) = Diverge.
Proof.
  apply (random_move_full_board _ 0%nat drawn_board).
  - reflexivity.
  - split; [reflexivity | repeat constructor].
  - intros c Hc. assert (E : c = 0 \/ c = 1 \/ c = 2 \/ c = 3 \/ c = 4 \/ c = 5 \/ c = 6) by lia.
    destruct E as [-> | [-> | [-> | [-> | [-> | [-> | ->]]]]]]; reflexivity.
Defined.

(** ** What the bot answers *)

Section Quiet.

Lemma quiet_bind {A B} (m : M A) (k : A -> M B) :
  quiet m -> (forall a, quiet (k a)) -> quiet (bind m k).
Proof.
  intros Hm Hk s. unfold bind. specialize (Hm s).
  destruct (m s) as [[a| |] s1]; simpl in *; try assumption.
  rewrite Hk. assumption.
Qed.

Lemma quiet_ret {A} (a : A) : quiet (ret a).
Proof. intros s. reflexivity. Qed.

Lemma quiet_load (r : nat) : quiet (load r).
Proof. intros s. unfold load. destruct (heap s !! r); reflexivity. Qed.

Lemma quiet_place_coin (column player : Z) : quiet (place_coin column player).
Proof.
  intros s. unfold place_coin, bind, get_state, load, lift, store, ret.
  destruct (heap s !! container (this s)) as [b|]; [|reflexivity].
  destruct (Board.place_coin b column player) as [[b' [res|]]|e|]; reflexivity.
Qed.

Lemma quiet_check_win (player : Z) : quiet (check_win player).
Proof.
  intros s. unfold check_win, bind, get_state, load, ret.
  destruct (heap s !! container (this s)); reflexivity.
Qed.

Lemma quiet_set_current_board (curr : nat) : quiet (set_current_board curr).
Proof.
  intros s. unfold set_current_board, bind, load, alloc, modify_this.
  destruct (heap s !! curr); reflexivity.
Qed.

Lemma quiet_for_return {X A} (xs : list X) (body : X -> M (option A)) :
  (forall x, quiet (body x)) -> quiet (for_return xs body).
Proof.
  intros Hbody. induction xs as [|x xs IH]; simpl; [apply quiet_ret|].
  apply quiet_bind; [apply Hbody|]. intros [a|]; [apply quiet_ret | apply IH].
Qed.

Lemma quiet_place_4th_coin (curr : nat) : quiet (place_4th_coin curr).
Proof.
  unfold place_4th_coin. apply quiet_bind; [apply quiet_set_current_board|]. intros _.
  apply quiet_for_return. intros player. apply quiet_for_return. intros col.
  apply quiet_bind; [apply quiet_place_coin|]. intros r.
  destruct (truthy r); [|apply quiet_ret].
  apply quiet_bind; [apply quiet_check_win|]. intros w.
  destruct (is_val w player); [apply quiet_ret|].
  apply quiet_bind; [apply quiet_set_current_board|]. intros _. apply quiet_ret.
Qed.

End Quiet.

Section Answers.

Lemma keeps_refl (s : state) : keeps (heap s) s.
Proof. intros r _. reflexivity. Qed.

Lemma keeps_lookup (h0 : list board) (s : state) (curr : nat) (b : board) :
  keeps h0 s -> h0 !! curr = Some b -> heap s !! curr = Some b.
Proof.
  intros Hk Hb. rewrite <- Hb. apply Hk. eapply lookup_lt_Some. eassumption.
Qed.

Lemma winning_column_none (b : board) (player : Z) :
  (forall c, 0 <= c < 7 -> wins_by b player c = false) ->
  winning_column b player = None.
Proof.
  intros Hnone. unfold winning_column.
  assert (G : forall cols, (forall c, In c cols -> 0 <= c < 7) ->
            first_some (fun col => if wins_by b player col then Some col else None) cols
            = None).
  { induction cols as [|c cols IH]; intros Hin; [reflexivity|]. simpl.
    rewrite (Hnone c) by (apply Hin; left; reflexivity).
    apply IH. intros c' Hc'. apply Hin. right. assumption. }
  apply G. intros c Hc. apply in_range in Hc. lia.
Qed.

Lemma winning_column_wins (b : board) (player c : Z) :
  winning_column b player = Some c -> 0 <= c < 7 /\ wins_by b player c = true.
Proof.
  unfold winning_column.
  assert (G : forall cols, (forall c, In c cols -> 0 <= c < 7) ->
            first_some (fun col => if wins_by b player col then Some col else None) cols
            = Some c -> 0 <= c < 7 /\ wins_by b player c = true).
  { induction cols as [|c0 cols IH]; intros Hin; [discriminate|]. simpl.
    destruct (wins_by b player c0) eqn:E.
    - intros [= <-]. split; [apply Hin; left; reflexivity | exact E].
    - apply IH. intros c' Hc'. apply Hin. right. assumption. }
  apply G. intros c0 Hc. apply in_range in Hc. lia.
Qed.

Lemma wins_by_accepts (b : board) (player c : Z) :
  wf_board b -> 0 <= c < 7 -> wins_by b player c = true -> accepts b c = true.
Proof.
  intros Hwf Hc. unfold wins_by. rewrite place_coin_inside, accepts_inside by assumption.
  destruct (_ =? 0); [reflexivity | discriminate].
Qed.

(** [place_4th_coin] as a whole: its answer, the random source and the
    caller's heap. *)
Lemma place_4th_coin_run (s : state) (curr : nat) (b : board) :
  heap s !! curr = Some b -> wf_board b ->
  exists s1,
    place_4th_coin curr s = (Ok (win_or_block_column b), s1) /\
    draws s1 = draws s /\ keeps (heap s) s1 /\ detached (heap s) s1 /\
    (win_or_block_column b = None -> simulating curr b s1).
Proof.
  intros Hcurr Hwf. destruct (place_4th_coin_result s curr b Hcurr Hwf) as [Hres Hsim].
  pose proof (quiet_place_4th_coin curr s) as Hq.
  destruct (copying_place_4th_coin (heap s) curr s (keeps_refl s)) as [Hk Hd].
  destruct (place_4th_coin curr s) as [r s1]. simpl in *. subst r.
  exists s1. split; [reflexivity|]. split; [assumption|]. split; [assumption|].
  split; [apply Hd; exact I|].
  unfold win_or_block_column. intros Hnone.
  destruct (winning_column b 2) eqn:E2; [discriminate|]. apply Hsim; [reflexivity | exact Hnone].
Qed.

End Answers.

Section BotMove.

Lemma bot_move_found (s s1 : state) (curr : nat) (c : Z) :
  thinks_ahead s ->
  place_4th_coin curr s = (Ok (Some c), s1) ->
  bot_move curr s = (Ok (Some c), s1).
Proof.
  intros Hd Hp. unfold bot_move. unfold bind at 1, get_state at 1.
  destruct Hd as [-> | ->]; simpl; rewrite (bind_ok _ _ _ _ _ Hp); reflexivity.
Qed.

Lemma random_move_playable (h0 : list board) (s : state) (curr : nat) (b : board) (col : Z) :
  keeps h0 s -> h0 !! curr = Some b -> wf_board b ->
  fst (random_move curr s) = Ok col ->
  0 <= col < 7 /\ accepts b col = true.
Proof.
  intros Hk Hb Hwf Hres.
  pose proof (random_move_run s curr b (keeps_lookup h0 s curr b Hk Hb) Hwf) as H.
  destruct (first_playable b (draws s)) as [c|] eqn:E.
  - destruct H as [H _]. rewrite H in Hres. injection Hres as <-.
    eapply first_playable_accepts. eassumption.
  - rewrite H in Hres. discriminate.
Qed.

Lemma safe_random_loop_playable (h0 : list board) (curr : nat) (b : board) (col : Z) :
  h0 !! curr = Some b -> wf_board b ->
  forall (fuel : nat) (s : state),
    keeps h0 s ->
    fst (safe_random_loop fuel curr s) = Ok col ->
    0 <= col < 7 /\ accepts b col = true.
Proof.
  intros Hb Hwf. induction fuel as [|fuel IH]; intros s Hk Hres; [discriminate|].
  cbn [safe_random_loop] in Hres. unfold bind in Hres.
  pose proof (random_move_playable h0 s curr b) as Hplay.
  pose proof (copying_keeps h0 (random_move curr) s (copying_random_move h0 curr) Hk) as Hk1.
  destruct (random_move curr s) as [[rm| |] s1]; try discriminate. simpl in Hk1.
  pose proof (copying_keeps h0 (check_mistake rm curr) s1
                (copying_check_mistake h0 rm curr) Hk1) as Hk2.
  destruct (check_mistake rm curr s1) as [[m| |] s2]; try discriminate. simpl in Hk2.
  destruct (negb (truthy m)).
  - injection Hres as <-. apply Hplay; auto.
  - eapply IH; eassumption.
Qed.

End BotMove.

(** X7: at difficulty ['moderate'] or ['hard'], when some column 0..6
    completes four in a row for the bot, [bot_move] answers the smallest
    such column and takes nothing from the random source. *)
Theorem bot_move_takes_win (s : state) (curr : nat) (b : board) (c : Z) :
  thinks_ahead s ->
  heap s !! curr = Some b -> wf_board b -> 0 <= c < 7 ->
  wins_by b 2 c = true ->
  (forall c', 0 <= c' < c -> wins_by b 2 c' = false) ->
  fst (bot_move curr s) = Ok (Some c) /\
  draws (snd (bot_move curr s)) = draws s.
Proof.
  intros Hd Hcurr Hwf Hc Hwin Hleast.
  destruct (place_4th_coin_run s curr b Hcurr Hwf) as (s1 & Hrun & Hdraws & _).
  unfold win_or_block_column in Hrun.
  rewrite (winning_column_least b 2 c Hc Hwin Hleast) in Hrun.
  rewrite (bot_move_found s s1 curr c Hd Hrun). split; [reflexivity | exact Hdraws].
Qed.

Lemma bot_move_takes_win_witness :
  fst (bot_move 0 (start_state win_or_block (Some "hard"%string) [5; 1])) = Ok (Some 3) /\
  draws (snd (bot_move 0 (start_state win_or_block (Some "hard"%string) [5; 1])))
    = draws (start_state win_or_block (Some "hard"%string) [5; 1]).
Proof.
  apply (bot_move_takes_win _ 0%nat win_or_block 3).
  - right. reflexivity.
  - reflexivity.
  - split; [reflexivity | repeat constructor].
  - lia.
  - vm_compute. reflexivity.
  - intros c' Hc'. assert (E : c' = 0 \/ c' = 1 \/ c' = 2) by lia.
    destruct E as [-> | [-> | ->]]; vm_compute; reflexivity.
Defined.

(** X8: at difficulty ['moderate'] or ['hard'], when no column wins for the
    bot but some column 0..6 would complete four in a row for player 1,
    [place_4th_coin] and [bot_move] answer the smallest such column: the
    bot blocks, again without touching the random source. *)
Theorem bot_move_blocks (s : state) (curr : nat) (b : board) (c : Z) :
  thinks_ahead s ->
  heap s !! curr = Some b -> wf_board b -> 0 <= c < 7 ->
  (forall c', 0 <= c' < 7 -> wins_by b 2 c' = false) ->
  wins_by b 1 c = true ->
  (forall c', 0 <= c' < c -> wins_by b 1 c' = false) ->
  fst (place_4th_coin curr s) = Ok (Some c) /\
  fst (bot_move curr s) = Ok (Some c) /\
  draws (snd (bot_move curr s)) = draws s.
Proof.
  intros Hd Hcurr Hwf Hc Hno Hwin Hleast.
  destruct (place_4th_coin_run s curr b Hcurr Hwf) as (s1 & Hrun & Hdraws & _).
  unfold win_or_block_column in Hrun.
  rewrite (winning_column_none b 2 Hno), (winning_column_least b 1 c Hc Hwin Hleast) in Hrun.
  rewrite (bot_move_found s s1 curr c Hd Hrun), Hrun.
  repeat split; [exact Hdraws].
Qed.

Lemma bot_move_blocks_witness :
  fst (place_4th_coin 0 (start_state must_block (Some "moderate"%string) [6])) = Ok (Some 3) /\
  fst (bot_move 0 (start_state must_block (Some "moderate"%string) [6])) = Ok (Some 3) /\
  draws (snd (bot_move 0 (start_state must_block (Some "moderate"%string) [6])))
    = draws (start_state must_block (Some "moderate"%string) [6]).
Proof.
  apply (bot_move_blocks _ 0%nat must_block 3).
  - left. reflexivity.
  - reflexivity.
  - split; [reflexivity | repeat constructor].
  - lia.
  - intros c' Hc'.
    assert (E : c' = 0 \/ c' = 1 \/ c' = 2 \/ c' = 3 \/ c' = 4 \/ c' = 5 \/ c' = 6) by lia.
    destruct E as [-> | [-> | [-> | [-> | [-> | [-> | ->]]]]]]; vm_compute; reflexivity.
  - vm_compute. reflexivity.
  - intros c' Hc'. assert (E : c' = 0 \/ c' = 1 \/ c' = 2) by lia.
    destruct E as [-> | [-> | ->]]; vm_compute; reflexivity.
Defined.

(** X9: when no column 0..6 completes four in a row for either player,
    [place_4th_coin] answers [None], and the bot's working copy is again
    equal to the caller's board, in an array of its own. *)
Theorem place_4th_coin_finds_nothing (s : state) (curr : nat) (b : board) :
  heap s !! curr = Some b -> wf_board b ->
  (forall c, 0 <= c < 7 -> wins_by b 2 c = false) ->
  (forall c, 0 <= c < 7 -> wins_by b 1 c = false) ->
  fst (place_4th_coin curr s) = Ok None /\
  simulating curr b (snd (place_4th_coin curr s)).
Proof.
  intros Hcurr Hwf H2 H1.
  destruct (place_4th_coin_run s curr b Hcurr Hwf) as (s1 & Hrun & _ & _ & _ & Hsim).
  assert (Hnone : win_or_block_column b = None).
  { unfold win_or_block_column.
    rewrite (winning_column_none b 2 H2), (winning_column_none b 1 H1). reflexivity. }
  rewrite Hrun, Hnone. split; [reflexivity | apply Hsim; exact Hnone].
Qed.

Lemma place_4th_coin_finds_nothing_witness :
  fst (place_4th_coin 0 (start_state zeros None [])) = Ok None /\
  simulating 0 zeros (snd (place_4th_coin 0 (start_state zeros None []))).
Proof.
  apply place_4th_coin_finds_nothing.
  - reflexivity.
  - apply wf_zeros.
  - intros c Hc.
    assert (E : c = 0 \/ c = 1 \/ c = 2 \/ c = 3 \/ c = 4 \/ c = 5 \/ c = 6) by lia.
    destruct E as [-> | [-> | [-> | [-> | [-> | [-> | ->]]]]]]; vm_compute; reflexivity.
  - intros c Hc.
    assert (E : c = 0 \/ c = 1 \/ c = 2 \/ c = 3 \/ c = 4 \/ c = 5 \/ c = 6) by lia.
    destruct E as [-> | [-> | [-> | [-> | [-> | [-> | ->]]]]]]; vm_compute; reflexivity.
Defined.

(** X10: at difficulty ['easy'], and at ['moderate'] when neither player has
    a winning column, [bot_move] answers the column of the first playable
    draw; when no draw is playable it does not return. *)
Theorem bot_move_random_fallback (s : state) (curr : nat) (b : board) :
  heap s !! curr = Some b -> wf_board b ->
  bot_difficulty (this s) = Some "easy"%string \/
  (bot_difficulty (this s) = Some "moderate"%string /\ win_or_block_column b = None) ->
  fst (bot_move curr s) =
    match first_playable b (draws s) with
    | Some c => Ok (Some c)
    | None => Diverge
    end.
Proof.
  intros Hcurr Hwf Hd. unfold bot_move. unfold bind at 1, get_state at 1.
  destruct Hd as [-> | [-> Hnone]]; simpl.
  - pose proof (random_move_run s curr b Hcurr Hwf) as H. unfold bind.
    destruct (random_move curr s) as [r s1]. simpl in H.
    destruct (first_playable b (draws s)); [destruct H as [-> _] | rewrite H]; reflexivity.
  - destruct (place_4th_coin_run s curr b Hcurr Hwf) as (s1 & Hrun & Hdraws & Hk & _).
    rewrite (bind_ok _ _ _ _ _ Hrun), Hnone.
    pose proof (random_move_run s1 curr b (keeps_lookup _ _ _ _ Hk Hcurr) Hwf) as H.
    rewrite Hdraws in H. unfold bind.
    destruct (random_move curr s1) as [r s2]. simpl in H.
    destruct (first_playable b (draws s)); [destruct H as [-> _] | rewrite H]; reflexivity.
Qed.

Lemma bot_move_random_fallback_witness :
  fst (bot_move 0 (start_state full_column (Some "easy"%string) [0; 7; 11])) =
    match first_playable full_column (draws (start_state full_column (Some "easy"%string) [0; 7; 11])) with
    | Some c => Ok (Some c)
    | None => Diverge
    end.
Proof.
  apply bot_move_random_fallback.
  - reflexivity.
  - split; [reflexivity | repeat constructor].
  - left. reflexivity.
Defined.

Lemma bot_move_playable (s : state) (curr : nat) (b : board) :
  heap s !! curr = Some b -> wf_board b ->
  (forall col, fst (bot_move curr s) = Ok (Some col) ->
     0 <= col < 7 /\ accepts b col = true) /\
  (bot_difficulty (this s) = Some "easy"%string \/ thinks_ahead s ->
     fst (bot_move curr s) <> Ok None).
Proof.
  intros Hcurr Hwf.
  remember (fst (bot_move curr s)) as r eqn:Er.
  cut ((forall col, r = Ok (Some col) -> 0 <= col < 7 /\ accepts b col = true) /\
       (is_difficulty (bot_difficulty (this s)) "easy"
        || is_difficulty (bot_difficulty (this s)) "moderate"
        || is_difficulty (bot_difficulty (this s)) "hard" = true -> r <> Ok None)).
  { intros [H1 H2]. split; [exact H1|]. intros Hd. apply H2.
    destruct Hd as [Hd | [Hd | Hd]]; rewrite Hd; reflexivity. }
  assert (Hrand : forall s1 r1, keeps (heap s) s1 ->
            r1 = fst (bind (random_move curr) (fun c => ret (Some c)) s1) ->
            (forall col, r1 = Ok (Some col) -> 0 <= col < 7 /\ accepts b col = true) /\
            r1 <> Ok None).
  { intros s1 r1 Hk1 ->. pose proof (random_move_playable (heap s) s1 curr b) as Hplay.
    unfold bind. destruct (random_move curr s1) as [[c| |] s2]; simpl.
    - split; [intros col [= <-]; auto | discriminate].
    - split; [discriminate | discriminate].
    - split; [discriminate | discriminate]. }
  assert (Hfound : forall c, win_or_block_column b = Some c ->
            0 <= c < 7 /\ accepts b c = true).
  { intros c. unfold win_or_block_column.
    destruct (winning_column b 2) as [c2|] eqn:E2.
    - intros [= <-]. destruct (winning_column_wins b 2 c2 E2).
      split; [assumption | eapply wins_by_accepts; eassumption].
    - intros E1. destruct (winning_column_wins b 1 c E1).
      split; [assumption | eapply wins_by_accepts; eassumption]. }
  destruct (place_4th_coin_run s curr b Hcurr Hwf) as (s1 & Hrun & _ & Hk1 & Hd1 & _).
  unfold bot_move in Er. unfold bind at 1, get_state at 1 in Er.
  destruct (is_difficulty _ "easy").
  { destruct (Hrand s r (keeps_refl s) Er) as [H1 H2]. split; [exact H1 | intros _; exact H2]. }
  destruct (is_difficulty _ "moderate").
  { rewrite (bind_ok _ _ _ _ _ Hrun) in Er.
    destruct (win_or_block_column b) as [c|] eqn:Ew.
    - subst r. split; [intros col [= <-]; auto | discriminate].
    - destruct (Hrand s1 r Hk1 Er) as [H1 H2]. split; [exact H1 | intros _; exact H2]. }
  destruct (is_difficulty _ "hard"); [|subst r; split; discriminate].
  rewrite (bind_ok _ _ _ _ _ Hrun) in Er.
  destruct (win_or_block_column b) as [c|] eqn:Ew.
  { subst r. split; [intros col [= <-]; auto | discriminate]. }
  unfold bind at 1 in Er.
  destruct (private_count_available (heap s) (range 0 7) curr 0 s1 Hd1) as [Hk2 _].
  destruct (count_available (range 0 7) curr 0 s1) as [[n| |] s2];
    try (subst r; split; discriminate).
  simpl in Hk2. destruct (0 <? n).
  - unfold bind at 1, get_state in Er. unfold bind in Er.
    pose proof (safe_random_loop_playable (heap s) curr b) as Hsafe.
    destruct (safe_random_loop (S (length (draws s2))) curr s2) as [[c| |] s3] eqn:E3;
      subst r; simpl; try (split; discriminate).
    split; [|discriminate]. intros col [= <-].
    eapply Hsafe; try eassumption. rewrite E3. reflexivity.
  - destruct (Hrand s2 r Hk2 Er) as [H1 H2]. split; [exact H1 | intros _; exact H2].
Qed.

(** X11: whatever the difficulty and the draws, a column that [bot_move]
    answers on a 6 x 7 board lies in 0..6 and is playable on the caller's
    board; and with one of the three difficulties it never answers [None]. *)
Theorem bot_move_answers_playable (s : state) (curr : nat) (b : board) :
  heap s !! curr = Some b -> wf_board b ->
  (forall col, fst (bot_move curr s) = Ok (Some col) ->
     0 <= col < 7 /\ accepts b col = true) /\
  (bot_difficulty (this s) = Some "easy"%string \/ thinks_ahead s ->
     fst (bot_move curr s) <> Ok None).
Proof. apply bot_move_playable. Qed.

Lemma bot_move_answers_playable_witness :
  (forall col,
     fst (bot_move 0 (start_state two_in_a_row (Some "hard"%string) [6; 3])) = Ok (Some col) ->
     0 <= col < 7 /\ accepts two_in_a_row col = true) /\
  (bot_difficulty (this (start_state two_in_a_row (Some "hard"%string) [6; 3]))
     = Some "easy"%string \/
   thinks_ahead (start_state two_in_a_row (Some "hard"%string) [6; 3]) ->
   fst (bot_move 0 (start_state two_in_a_row (Some "hard"%string) [6; 3])) <> Ok None).
Proof.
  apply bot_move_answers_playable.
  - reflexivity.
  - split; [reflexivity | repeat constructor].
Defined.

(** ** The session *)

Section Session.

Lemma coins_kept_refl (b : board) : coins_kept b b.
Proof. intros r c _. reflexivity. Qed.

Lemma coins_kept_trans (b1 b2 b3 : board) :
  coins_kept b1 b2 -> coins_kept b2 b3 -> coins_kept b1 b3.
Proof.
  intros H12 H23 r c Hne. rewrite H23, H12; auto. rewrite H12; assumption.
Qed.

(** [place_coin] writes into an empty cell only, on any array. *)
Lemma place_coin_grows (b b' : board) (column player : Z) (res : option bool) :
  Board.place_coin b column player = Ok (b', res) -> coins_kept b b'.
Proof.
  unfold Board.place_coin, Board.check_move_allowed, getitem.
  destruct (norm_index num_rows 0) as [i|] eqn:Ei; [|discriminate].
  assert (i = 0%nat) by (vm_compute in Ei; congruence). subst i.
  destruct (norm_index num_columns column) as [j|]; [|discriminate].
  destruct (b !! 0%nat) as [row|] eqn:Erow; [|discriminate].
  destruct (row !! j) as [v|] eqn:Ev; [|discriminate]. simpl.
  destruct (Z.eqb_spec v 0) as [->|_]; [|intros [= <- _]; apply coins_kept_refl].
  intros [= <- _].
  assert (Htop : cell b 0 j = 0).
  { unfold cell. rewrite !nth_lookup, Erow. simpl. rewrite Ev. reflexivity. }
  destruct (landing_row_lowest_empty b j Htop) as (_ & Hempty & _).
  intros r c Hne. apply cell_setcell_other. intros [= -> ->]. contradiction.
Qed.

Lemma evolves_refl (o : self) : evolves o o.
Proof. unfold evolves. tauto. Qed.

Lemma evolves_trans (o1 o2 o3 : self) : evolves o1 o2 -> evolves o2 o3 -> evolves o1 o3.
Proof.
  unfold evolves. intros (C1 & N1 & D1 & G1 & T1 & B1) (C2 & N2 & D2 & G2 & T2 & B2).
  repeat split; try congruence; auto.
  intros Hn. rewrite T2, T1; congruence.
Qed.

Lemma session_step_refl (s : state) : session_step s s.
Proof.
  split; [apply evolves_refl|]. intros b Hb. exists b. split; [assumption | apply coins_kept_refl].
Qed.

Lemma session_step_trans (s1 s2 s3 : state) :
  session_step s1 s2 -> session_step s2 s3 -> session_step s1 s3.
Proof.
  intros [E12 H12] [E23 H23]. split; [eapply evolves_trans; eassumption|].
  intros b Hb. destruct (H12 b Hb) as (b2 & Hb2 & K12).
  destruct E12 as (C12 & _). rewrite C12 in H23.
  destruct (H23 b2 Hb2) as (b3 & Hb3 & K23).
  exists b3. split; [assumption | eapply coins_kept_trans; eassumption].
Qed.

Lemma lawful_bind {A B} (m : M A) (k : A -> M B) :
  lawful m -> (forall a, lawful (k a)) -> lawful (bind m k).
Proof.
  intros Hm Hk s. unfold bind. specialize (Hm s).
  destruct (m s) as [[a| |] s1]; simpl in *; try assumption.
  eapply session_step_trans; [exact Hm | apply Hk].
Qed.

Lemma lawful_pure {A} (m : M A) : (forall s, snd (m s) = s) -> lawful m.
Proof. intros H s. rewrite H. apply session_step_refl. Qed.

Lemma lawful_ret {A} (a : A) : lawful (ret a).
Proof. apply lawful_pure. reflexivity. Qed.

Lemma lawful_place_coin (column player : Z) : lawful (place_coin column player).
Proof.
  intros s. unfold place_coin, bind, get_state, load, lift, store, ret.
  destruct (heap s !! container (this s)) as [b|] eqn:Hb; [|apply session_step_refl].
  destruct (Board.place_coin b column player) as [[b' [res|]]|e|] eqn:Hp; simpl;
    try apply session_step_refl.
  split; [apply evolves_refl|]. simpl. intros b0 Hb0.
  assert (b0 = b) by congruence. subst b0. exists b'. split.
  - apply list_lookup_insert_eq. eapply lookup_lt_Some. eassumption.
  - eapply place_coin_grows. eassumption.
Qed.

Lemma lawful_check_win (player : Z) : lawful (check_win player).
Proof.
  apply lawful_pure. intros s. unfold check_win, bind, get_state, load, ret.
  destruct (heap s !! container (this s)); reflexivity.
Qed.

Lemma lawful_end_game : lawful (modify_this (set_game_over true)).
Proof.
  intros s. split.
  - unfold evolves. simpl. tauto.
  - intros b Hb. exists b. split; [exact Hb | apply coins_kept_refl].
Qed.

Lemma lawful_after_placement (player : Z) : lawful (after_placement player).
Proof.
  unfold after_placement. apply lawful_bind; [apply lawful_check_win|]. intros w.
  apply lawful_bind; [destruct (is_val w player); [apply lawful_end_game | apply lawful_ret]|].
  intros _. apply lawful_bind; [apply lawful_check_win|]. intros d.
  destruct (is_val d 3); [apply lawful_end_game | apply lawful_ret].
Qed.

Lemma lawful_Bot_init (d : option string) : lawful (Bot_init d).
Proof.
  intros s. split; [apply evolves_refl|]. simpl. intros b Hb. exists b.
  split; [|apply coins_kept_refl].
  rewrite lookup_app_l; [assumption | eapply lookup_lt_Some; eassumption].
Qed.

(** A call of [bot_move] on another object leaves the caller as it was. *)
Lemma lawful_bot_call (bot : self) (curr : nat) : lawful (call_on bot (bot_move curr)).
Proof.
  intros s. unfold call_on.
  pose proof (bot_move_keeps (heap s) curr (set_this bot s) (keeps_refl s)) as Hk.
  destruct (bot_move curr (set_this bot s)) as [r s1]. simpl in *.
  split; [apply evolves_refl|]. intros b Hb. exists b. split; [|apply coins_kept_refl].
  rewrite <- Hb. apply Hk. eapply lookup_lt_Some. eassumption.
Qed.

Lemma lawful_bot_turn : lawful bot_turn.
Proof.
  unfold bot_turn. apply lawful_bind; [apply lawful_pure; reflexivity|]. intros s0.
  apply lawful_bind; [apply lawful_Bot_init|]. intros bot.
  apply lawful_bind; [apply lawful_bot_call|]. intros [c|]; [|apply lawful_pure; reflexivity].
  apply lawful_bind; [apply lawful_place_coin|]. intros r.
  destruct (truthy r); [apply lawful_after_placement | apply lawful_ret].
Qed.

Lemma lawful_switch_turn :
  lawful (do s1 <- get_state ;;
          if num_players (this s1) =? 2 then
            run modify_this (fun o => set_turn ((turn o + 1) mod 2) o) ;; ret false
          else if negb (game_over (this s1)) then run bot_turn ;; ret false
          else ret false).
Proof.
  intros s. unfold bind at 1, get_state at 1.
  destruct (Z.eqb_spec (num_players (this s)) 2) as [E|E].
  - simpl. split.
    + unfold evolves. simpl. repeat split; auto; try congruence.
      intros _. pose proof (Z.mod_pos_bound (turn (this s) + 1) 2 ltac:(lia)). lia.
    + intros b Hb. exists b. split; [exact Hb | apply coins_kept_refl].
  - destruct (negb (game_over (this s))); [|apply session_step_refl].
    apply (lawful_bind bot_turn (fun _ => ret false)); [apply lawful_bot_turn|].
    intros _. apply lawful_ret.
Qed.

Lemma lawful_mouse_button_down (posx : Z) : lawful (mouse_button_down posx).
Proof.
  unfold mouse_button_down. intros s. unfold bind at 1, get_state at 1.
  apply (lawful_bind (place_coin _ _)); [apply lawful_place_coin|]. intros r.
  destruct (truthy r); [|apply lawful_ret].
  apply lawful_bind; [apply lawful_after_placement|]. intros _. apply lawful_switch_turn.
Qed.

Lemma lawful_event_handler (events : list event) : lawful (event_handler events).
Proof.
  induction events as [|ev events IH]; [apply lawful_ret|].
  destruct ev; simpl; try exact IH; [apply lawful_pure; reflexivity|].
  apply lawful_bind; [apply lawful_mouse_button_down|]. intros [|]; [apply lawful_ret | exact IH].
Qed.

Lemma lawful_gameloop (batches : list (list event)) : lawful (gameloop batches).
Proof.
  induction batches as [|events batches IH]; intros s; simpl;
    unfold bind at 1, get_state at 1; destruct (game_over (this s));
    try apply session_step_refl.
  apply (lawful_bind (event_handler events) (fun _ => gameloop batches));
    [apply lawful_event_handler | intros _; exact IH].
Qed.

End Session.

(** X12: whatever events arrive, [event_handler] and [gameloop] keep the
    game object on the same board array with the same player count and
    difficulty; [game_over], once set, stays set; [turn] stays 0 or 1 and,
    when the session does not have two players, never changes. *)
Theorem session_attributes_evolve (s : state) (events : list event)
    (batches : list (list event)) :
  evolves (this s) (this (snd (event_handler events s))) /\
  evolves (this s) (this (snd (gameloop batches s))).
Proof.
  split; [apply lawful_event_handler | apply lawful_gameloop].
Qed.

(** X13: no coin on the game's board is ever moved, replaced or removed:
    after any run of [gameloop] every cell that was occupied holds the same
    coin, whatever the players click and whatever the bot simulates. *)
Theorem coins_are_never_changed (s : state) (batches : list (list event)) (b : board) :
  heap s !! container (this s) = Some b ->
  exists b',
    heap (snd (gameloop batches s)) !! container (this s) = Some b' /\
    coins_kept b b'.
Proof.
  intros Hb. destruct (lawful_gameloop batches s) as [_ H]. apply H. assumption.
Qed.

Lemma coins_are_never_changed_witness :
  exists b',
    heap (snd (gameloop [[MOUSEBUTTONDOWN 50; MOUSEBUTTONDOWN 150]]
                 (mkState [full_column] [] (mkSelf 0 0 false 2 None))))
      !! container (this (mkState [full_column] [] (mkSelf 0 0 false 2 None))) = Some b' /\
    coins_kept full_column b'.
Proof. apply coins_are_never_changed. reflexivity. Defined.

Section Clicks.

Lemma modify_this_run (f : self -> self) (s : state) :
  modify_this f s = (Ok tt, set_this (f (this s)) s).
Proof. reflexivity. Qed.

Lemma after_placement_run (s : state) (b : board) (player : Z) :
  heap s !! container (this s) = Some b ->
  after_placement player s =
  (Ok tt, set_this (set_game_over (game_over (this s)
                                   || is_val (Board.check_win b player) player
                                   || is_val (Board.check_win b 1) 3) (this s)) s).
Proof.
  intros Hb. unfold after_placement.
  rewrite (bind_ok _ _ _ _ _ (check_win_run s b player Hb)).
  destruct s as [h ds [k t g n d]]. simpl in Hb.
  destruct (is_val (Board.check_win b player) player).
  - rewrite (bind_ok _ _ _ _ _ (modify_this_run _ _)).
    erewrite (bind_ok (check_win 1)) by (apply check_win_run; simpl; exact Hb).
    destruct (is_val (Board.check_win b 1) 3), g; reflexivity.
  - rewrite (bind_ok (ret tt) _ _ _ tt eq_refl).
    erewrite (bind_ok (check_win 1)) by (apply check_win_run; simpl; exact Hb).
    destruct (is_val (Board.check_win b 1) 3), g; reflexivity.
Qed.

Lemma get_state_run (s : state) : get_state s = (Ok s, s).
Proof. reflexivity. Qed.

Lemma place_coin_accepted (s : state) (b b' : board) (column player : Z) :
  heap s !! container (this s) = Some b ->
  Board.place_coin b column player = Ok (b', Some true) ->
  place_coin column player s =
  (Ok (Some true), set_heap (<[container (this s) := b']> (heap s)) s) /\
  heap (set_heap (<[container (this s) := b']> (heap s)) s) !! container (this s) = Some b'.
Proof.
  intros Hb Hp. rewrite (place_coin_run s b column player Hb), Hp. split; [reflexivity|].
  simpl. apply list_lookup_insert_eq. eapply lookup_lt_Some. eassumption.
Qed.

End Clicks.

(** X14: in a two-player session a click on a column that [place_coin]
    accepts drops the coin of the player whose turn it is into the game's
    board, passes the turn to the other player, and sets [game_over] exactly
    when the mover now has four in a row or [check_win(1)] reports a draw. *)
Theorem two_player_click (s : state) (b b' : board) (posx : Z) :
  heap s !! container (this s) = Some b ->
  num_players (this s) = 2 ->
  Board.place_coin b (posx / SQUARESIZE) (if turn (this s) =? 0 then 1 else 2)
    = Ok (b', Some true) ->
  event_handler [MOUSEBUTTONDOWN posx] s =
  (Ok tt,
   mkState (<[container (this s) := b']> (heap s)) (draws s)
     (mkSelf (container (this s)) ((turn (this s) + 1) mod 2)
        (game_over (this s)
         || is_val (Board.check_win b' (if turn (this s) =? 0 then 1 else 2))
                   (if turn (this s) =? 0 then 1 else 2)
         || is_val (Board.check_win b' 1) 3)
        2 (bot_difficulty (this s)))).
Proof.
  intros Hb Hn Hp. destruct (place_coin_accepted s b b' _ _ Hb Hp) as [Hplace Hb'].
  cbn [event_handler].
  match goal with |- _ = (_, ?s') =>
    assert (Hm : mouse_button_down posx s = (Ok false, s'))
  end.
  { unfold mouse_button_down.
    rewrite (bind_ok _ _ _ _ _ (get_state_run s)). cbv beta zeta.
    rewrite (bind_ok _ _ _ _ _ Hplace). cbn [truthy].
    rewrite (bind_ok _ _ _ _ _ (after_placement_run _ b' _ Hb')).
    rewrite (bind_ok _ _ _ _ _ (get_state_run _)). cbv beta.
    destruct s as [h ds [k t g n d]]. simpl in Hn. subst n. reflexivity. }
  rewrite (bind_ok _ _ _ _ _ Hm). reflexivity.
Qed.

Lemma two_player_click_witness :
  event_handler [MOUSEBUTTONDOWN 350] (mkState [must_block] [] (mkSelf 0 0 false 2 None)) =
  (Ok tt,
   mkState [setcell must_block 5 3 1] [] (mkSelf 0 1 true 2 None)).
Proof.
  apply (two_player_click (mkState [must_block] [] (mkSelf 0 0 false 2 None))
           must_block (setcell must_block 5 3 1) 350); reflexivity.
Defined.

